(** * containerd client: the image pull-and-unpack pipeline

    A shallow embedding of [client.go] and [spec.go].  The Go code talks to
    remote collaborators (content store, image store, snapshotter, diff
    service, resolver); the embedding threads a world state through every
    collaborator call and records each call in a trace, so that statements
    about which collaborator is reached, in which order and with which
    arguments can be made about the code as it is written. *)

From stdpp Require Import base numbers strings list gmap.

Set Default Proof Using "Type".
Open Scope string_scope.
Open Scope list_scope.

(** ** Data model *)

Abbreviation bytes := (list Byte.byte).

(** Package [digest]: a digest is an opaque comparable string. *)
Module digest.
Abbreviation Digest := string.
End digest.

(** Package [v1] of the OCI image spec. *)
Module v1.
(** Modelled from the spec: the declaration of [v1.Descriptor] is not part
    of the sources; the spec gives it as (mediaType, digest, size). *)
Record Descriptor := mkDescriptor {
  MediaType : string;
  Digest : digest.Digest;
  Size : Z
}.

(** Modelled from the spec: [v1.Manifest] is (config, ordered layers). *)
Record Manifest := mkManifest {
  Config : Descriptor;
  Layers : list Descriptor
}.

(** The zero value of a descriptor, as [make] leaves it. *)
Definition zeroDescriptor : Descriptor :=
  {| MediaType := ""; Digest := ""; Size := 0 |}.
End v1.

(** Package [images]. *)
Module images.
Record Image := mkImage {
  Name : string;
  Target : v1.Descriptor
}.
End images.

(** Package [rootfs]. *)
Module rootfs.
Record Layer := mkLayer {
  Diff : v1.Descriptor;
  Blob : v1.Descriptor
}.

Definition zeroLayer : Layer :=
  {| Diff := v1.zeroDescriptor; Blob := v1.zeroDescriptor |}.

Definition setDiff (l : Layer) (d : v1.Descriptor) : Layer :=
  {| Diff := d; Blob := Blob l |}.

Definition setBlob (l : Layer) (b : v1.Descriptor) : Layer :=
  {| Diff := Diff l; Blob := b |}.
End rootfs.

(** ** Errors and results *)

(** Go [error] values.  [errors_Errorf] and [errors_Wrap] are the two
    constructors of [github.com/pkg/errors] that the client uses (the
    recorded stack is left out); the remaining constructors are the kinds
    of error the design document lists for the collaborators. *)
Inductive error :=
| errors_Errorf (msg : string)
| errors_Wrap (cause : error) (msg : string)
| ErrNotFound (what : string)
| ErrDigestMismatch (dgst : digest.Digest)
| ErrIO (msg : string)
| ErrCanceled.

(** The outcome of a Go function returning [(A, error)] that can also panic
    at run time (index out of range, nil dereference). *)
Inductive result (A : Type) :=
| Ok (a : A)
| Err (e : error)
| Panic (msg : string).
Arguments Ok {A} a.
Arguments Err {A} e.
Arguments Panic {A} msg.

Definition isOk {A} (r : result A) : bool :=
  match r with Ok _ => true | _ => false end.

Definition rbind {A B} (r : result A) (k : A -> result B) : result B :=
  match r with
  | Ok a => k a
  | Err e => Err e
  | Panic m => Panic m
  end.

(** [xs[i]] on a Go slice: a run-time panic when [i] is out of range. *)
Definition index {A} (xs : list A) (i : nat) : result A :=
  match xs !! i with
  | Some x => Ok x
  | None => Panic "index out of range"
  end.

(** ** Handles of the client *)

Record Conn := mkConn { conn_id : nat }.

(** [Client] of client.go. *)
Record Client := mkClient {
  conn : Conn;
  Runtime : string
}.

(** The service clients built on the connection by [c.content()],
    [c.snapshotter()], [c.images()] and [c.diff()]. *)
Record content_Store := mkContentStore { content_conn : Conn }.
Record snapshot_Snapshotter := mkSnapshotter { snapshot_conn : Conn }.
Record images_Store := mkImagesStore { images_conn : Conn }.
Record diff_DiffService := mkDiffService { diff_conn : Conn }.

Definition content (c : Client) : content_Store :=
  {| content_conn := conn c |}.

Definition snapshotter (c : Client) : snapshot_Snapshotter :=
  {| snapshot_conn := conn c |}.

Definition images (c : Client) : images_Store :=
  {| images_conn := conn c |}.

Definition diff (c : Client) : diff_DiffService :=
  {| diff_conn := conn c |}.

(** [Image] of the client package: the client and the stored image. *)
Record Image := mkClientImage {
  client : Client;
  i : images.Image
}.

(** [snapshotUnpacker] of client.go. *)
Record snapshotUnpacker := mkSnapshotUnpacker {
  su_snapshotter : snapshot_Snapshotter;
  su_store : content_Store;
  su_diff : diff_DiffService
}.

(** ** Collaborators *)

Section Collaborators.
(** [W] is the state of everything outside the client process; [Fetcher]
    is [remotes.Fetcher]. *)
Context {W Fetcher : Type}.

(** The handlers [Pull] hands to [images.Dispatch]. *)
Inductive Handler :=
| FetchHandler (store : content_Store) (fetcher : Fetcher)
| ChildrenHandler (store : content_Store).

(** A collaborator call made by client.go, with its arguments. *)
Inductive Call :=
| CallReadBlob (store : content_Store) (dgst : digest.Digest)
| CallRootFS (image : images.Image) (store : content_Store)
| CallApplyLayers (layers : list rootfs.Layer)
    (sn : snapshot_Snapshotter) (df : diff_DiffService)
| CallResolve (ref : string)
| CallFetcher (name : string)
| CallDispatch (handlers : list Handler) (desc : v1.Descriptor)
| CallImagePut (istore : images_Store) (name : string) (desc : v1.Descriptor)
| CallImageGet (istore : images_Store) (name : string).

(** [rootfs.ApplyLayers] is the only callee of [Pull] and [Unpack] that is
    handed the snapshotter and the diff service. *)
Definition reachesSnapshotterOrDiff (c : Call) : bool :=
  match c with
  | CallApplyLayers _ _ _ => true
  | _ => false
  end.

(** A remote operation: it answers with a value or an error and may change
    the world. *)
Definition remote (A : Type) : Type := W -> (error + A) * W.

Definition remote_ret {A} (a : A) : remote A := fun w => (inr a, w).

Definition remote_fail {A} (e : error) : remote A := fun w => (inl e, w).

Definition remote_bind {A B} (m : remote A) (k : A -> remote B) : remote B :=
  fun w =>
    match m w with
    | (inl e, w') => (inl e, w')
    | (inr a, w') => k a w'
    end.

(** [remotes.Resolver]: an interface with the two methods [Pull] uses. *)
Record Resolver := mkResolver {
  Resolve : string -> remote (string * v1.Descriptor);
  ResolverFetcher : string -> remote Fetcher
}.

(** What the client imports from the rest of the repository and from its
    libraries.  Their code is not in client.go; the client's functions are
    defined against this interface. *)
Class Collab := mkCollab {
  content_ReadBlob : content_Store -> digest.Digest -> remote bytes;
  json_Unmarshal : bytes -> error + v1.Manifest;
  Image_RootFS : images.Image -> content_Store -> remote (list digest.Digest);
  rootfs_ApplyLayers :
    list rootfs.Layer -> snapshot_Snapshotter -> diff_DiffService ->
    remote digest.Digest;
  images_Dispatch : list Handler -> v1.Descriptor -> remote unit;
  imagesStore_Put : images_Store -> string -> v1.Descriptor -> remote unit;
  imagesStore_Get : images_Store -> string -> remote images.Image;
  docker_NewResolver : Resolver;
  MediaTypeImageLayer : string
}.
End Collaborators.

Arguments Handler : clear implicits.
Arguments Call : clear implicits.
Arguments Resolver : clear implicits.
Arguments Collab : clear implicits.
Arguments remote : clear implicits.
Arguments remote_ret {W A} a.
Arguments remote_fail {W A} e.
Arguments remote_bind {W A B} m k.


(** ** The client's code *)

Section ClientCode.
Context {W Fetcher : Type} {C : Collab W Fetcher}.

(** The state a client function runs in: the world outside the process and
    the collaborator calls made so far, oldest first. *)
Record State := mkState {
  world : W;
  trace : list (Call Fetcher)
}.

(** A Go function of the client: it returns a value or an error, or panics,
    and leaves a new state. *)
Definition M (A : Type) : Type := State -> result A * State.

Definition ret {A} (a : A) : M A := fun st => (Ok a, st).

Definition throw {A} (e : error) : M A := fun st => (Err e, st).

Definition bind {A B} (m : M A) (k : A -> M B) : M B := fun st =>
  match m st with
  | (Ok a, st') => k a st'
  | (Err e, st') => (Err e, st')
  | (Panic msg, st') => (Panic msg, st')
  end.

(** A pure computation of the process, which may panic. *)
Definition lift {A} (r : result A) : M A := fun st => (r, st).

(** A library function returning [(A, error)] without touching the world. *)
Definition liftE {A} (r : error + A) : M A := fun st =>
  match r with
  | inl e => (Err e, st)
  | inr a => (Ok a, st)
  end.

(** The state after collaborator call [c] left the world as [w]. *)
Definition after (st : State) (c : Call Fetcher) (w : W) : State :=
  {| world := w; trace := trace st ++ [c] |}.

(** A collaborator call: run the remote operation on the world and record
    the call. *)
Definition call {A} (c : Call Fetcher) (op : remote W A) : M A := fun st =>
  match op (world st) with
  | (inl e, w) => (Err e, after st c w)
  | (inr a, w) => (Ok a, after st c w)
  end.

(** [if err != nil { return nil, errors.Wrap(err, msg) }] *)
Definition wrapping {A} (m : M A) (msg : string) : M A := fun st =>
  match m st with
  | (Err e, st') => (Err (errors_Wrap e msg), st')
  | other => other
  end.
End ClientCode.

Arguments State : clear implicits.
Arguments M : clear implicits.

Declare Scope go_scope.
Delimit Scope go_scope with go.
Notation "x <- m ;; k" := (bind m (fun x => k))
  (at level 100, m at next level, right associativity) : go_scope.
Open Scope go_scope.

Section Unpacking.
Context {W Fetcher : Type} {C : Collab W Fetcher}.

(** The error [getLayers] builds when the two layer counts differ; the spec
    calls it [LayerMismatch]. *)
Definition LayerMismatch : error :=
  errors_Errorf "mismatched image rootfs and manifest layers".

(** The body of [for i := range diffIDs] in [getLayers], run for the
    indices [idx] in turn: two field assignments on [layers[i]], reading
    [diffIDs[i]] and [manifest.Layers[i]]. *)
Fixpoint getLayers_loop (diffIDs : list digest.Digest)
    (manifest : v1.Manifest) (idx : list nat) (layers : list rootfs.Layer)
    : result (list rootfs.Layer) :=
  match idx with
  | [] => Ok layers
  | i :: rest =>
    rbind (index diffIDs i) (fun d =>
    rbind (index layers i) (fun l =>
    let layers1 :=
      <[i := rootfs.setDiff l
               {| v1.MediaType := MediaTypeImageLayer;
                  v1.Digest := d;
                  v1.Size := 0 |}]> layers in
    rbind (index (v1.Layers manifest) i) (fun b =>
    rbind (index layers1 i) (fun l1 =>
    let layers2 := <[i := rootfs.setBlob l1 b]> layers1 in
    getLayers_loop diffIDs manifest rest layers2))))
  end.

(** [(s *snapshotUnpacker) getLayers] *)
Definition getLayers (s : snapshotUnpacker) (image : images.Image)
    : M W Fetcher (list rootfs.Layer) :=
  p <- wrapping
         (call (CallReadBlob (su_store s) (v1.Digest (images.Target image)))
               (content_ReadBlob (su_store s) (v1.Digest (images.Target image))))
         "failed to read manifest blob" ;;
  manifest <- wrapping (liftE (json_Unmarshal p))
                "failed to unmarshal manifest" ;;
  diffIDs <- wrapping
               (call (CallRootFS image (su_store s))
                     (Image_RootFS image (su_store s)))
               "failed to resolve rootfs" ;;
  if negb (length diffIDs =? length (v1.Layers manifest))%nat then
    throw LayerMismatch
  else
    let layers := replicate (length diffIDs) rootfs.zeroLayer in
    lift (getLayers_loop diffIDs manifest (seq 0 (length diffIDs)) layers).

(** [(s *snapshotUnpacker) Unpack] *)
Definition snapshotUnpacker_Unpack (s : snapshotUnpacker)
    (image : images.Image) : M W Fetcher unit :=
  layers <- getLayers s image ;;
  _ <- call (CallApplyLayers layers (su_snapshotter s) (su_diff s))
            (rootfs_ApplyLayers layers (su_snapshotter s) (su_diff s)) ;;
  ret tt.

(** The [Unpacker] interface: one method. *)
Record Unpacker := mkUnpacker {
  Unpack : images.Image -> M W Fetcher unit
}.

(** [*snapshotUnpacker] as an [Unpacker]. *)
Definition asUnpacker (s : snapshotUnpacker) : Unpacker :=
  {| Unpack := snapshotUnpacker_Unpack s |}.

(** [PullContext]; a nil [Unpacker] is [None]. *)
Record PullContext := mkPullContext {
  pc_Resolver : Resolver W Fetcher;
  pc_Unpacker : option Unpacker
}.

(** [PullOpts]: the option updates the context it is given, or fails. *)
Definition PullOpts : Type := Client -> PullContext -> M W Fetcher PullContext.

Definition defaultPullContext : PullContext :=
  {| pc_Resolver := docker_NewResolver; pc_Unpacker := None |}.

Definition WithPullUnpack : PullOpts := fun client c =>
  ret {| pc_Resolver := pc_Resolver c;
         pc_Unpacker := Some (asUnpacker
           {| su_store := content client;
              su_diff := diff client;
              su_snapshotter := snapshotter client |}) |}.

(** [for _, o := range opts] at the head of [Pull]. *)
Fixpoint applyPullOpts (opts : list PullOpts) (c : Client)
    (pullCtx : PullContext) : M W Fetcher PullContext :=
  match opts with
  | [] => ret pullCtx
  | o :: rest => pullCtx' <- o c pullCtx ;; applyPullOpts rest c pullCtx'
  end.

(** [(c *Client) Pull] *)
Definition Pull (c : Client) (ref : string) (opts : list PullOpts)
    : M W Fetcher Image :=
  pullCtx <- applyPullOpts opts c defaultPullContext ;;
  let store := content c in
  nd <- call (CallResolve ref) (Resolve (pc_Resolver pullCtx) ref) ;;
  let '(name, desc) := nd in
  fetcher <- call (CallFetcher name)
                  (ResolverFetcher (pc_Resolver pullCtx) name) ;;
  let handlers := [FetchHandler store fetcher; ChildrenHandler store] in
  _ <- call (CallDispatch handlers desc) (images_Dispatch handlers desc) ;;
  let istore := images c in
  _ <- call (CallImagePut istore name desc)
            (imagesStore_Put istore name desc) ;;
  i <- call (CallImageGet istore name) (imagesStore_Get istore name) ;;
  _ <- match pc_Unpacker pullCtx with
       | Some u => Unpack u i
       | None => ret tt
       end ;;
  ret {| client := c; i := i |}.
End Unpacking.

Arguments Unpacker : clear implicits.
Arguments PullContext : clear implicits.
Arguments PullOpts : clear implicits.

(** ** Container spec options (spec.go) *)

Section SpecOptions.
(** The fields of [specs.Process] and [specs.Spec] that spec.go does not
    name are kept as one opaque component each. *)
Context {ProcessRest SpecRest : Type}.

Record Process := mkProcess {
  Args : list string;
  process_rest : ProcessRest
}.

(** [specs.Spec]: [Process] is a pointer and [Annotations] a map, both of
    which can be nil. *)
Record Spec := mkSpec {
  spec_Process : option Process;
  Annotations : option (gmap string string);
  spec_rest : SpecRest
}.

(** [SpecOpts]: the option updates the spec [s] points to, or fails. *)
Definition SpecOpts : Type := Spec -> result Spec.

Definition WithImageRef (ref : string) : SpecOpts := fun s =>
  let annotations :=
    match Annotations s with
    | None => ∅
    | Some m => m
    end in
  Ok {| spec_Process := spec_Process s;
        Annotations := Some (<["image" := ref]> annotations);
        spec_rest := spec_rest s |}.

Definition WithArgs (args : list string) : SpecOpts := fun s =>
  match spec_Process s with
  | None => Panic "invalid memory address or nil pointer dereference"
  | Some p =>
    Ok {| spec_Process := Some {| Args := args;
                                  process_rest := process_rest p |};
          Annotations := Annotations s;
          spec_rest := spec_rest s |}
  end.

(** [createDefaultSpec] lives in a platform file outside the sources. *)
Variable createDefaultSpec : string -> error + Spec.

Fixpoint applySpecOpts (opts : list SpecOpts) (s : Spec) : result Spec :=
  match opts with
  | [] => Ok s
  | o :: rest => rbind (o s) (applySpecOpts rest)
  end.

Definition GenerateSpec (id : string) (opts : list SpecOpts) : result Spec :=
  match createDefaultSpec id with
  | inl e => Err e
  | inr s => applySpecOpts opts s
  end.
End SpecOptions.

Arguments Process : clear implicits.
Arguments Spec : clear implicits.
Arguments SpecOpts : clear implicits.

(** ** The collaborators behind the client

    [images.Dispatch], the two handlers, [content.ReadBlob],
    [images.Image.RootFS], [rootfs.ApplyLayers] and the three stores belong
    to this repository but not to the sources at hand.  This module gives
    them the behaviour the design document describes, as one instance of
    [Collab]. *)

Module Daemon.

(** Modelled from the spec: [Fetcher.Fetch(Descriptor) -> byte stream],
    failing with [NotFound] or [IOError]. *)
Definition Fetcher : Type := v1.Descriptor -> error + bytes.

(** Modelled from the spec: the kind of a content node, which decides what
    its children are. *)
Inductive Kind := KManifest | KIndex | KLeaf.

(** Modelled from the spec: the state of the collaborators.  [blobs] is the
    Blob Store, [imgs] the Image Store, [committed] and [active] the
    snapshots the Snapshotter holds, by key; [fetched] logs every descriptor
    asked of a fetcher and [commits] every key the Snapshotter committed,
    oldest first. *)
Record World := mkWorld {
  blobs : gmap digest.Digest bytes;
  imgs : gmap string v1.Descriptor;
  committed : gset string;
  active : gset string;
  fetched : list v1.Descriptor;
  commits : list string
}.

(** Modelled from the spec: what lies outside the stores: the registry
    behind the resolver, the digest function, the parsers of the blob
    formats, the ChainID fold step and the diff applier.  [maxDepth] bounds
    the depth of a content graph (an index over manifests over blobs has
    depth three). *)
Record Remote := mkRemote {
  registry : string -> error + (string * v1.Descriptor);
  fetchers : string -> error + Fetcher;
  digestOf : bytes -> digest.Digest;
  kindOf : string -> Kind;
  parseManifest : bytes -> error + v1.Manifest;
  parseIndex : bytes -> error + list v1.Descriptor;
  parseConfig : bytes -> error + list digest.Digest;
  chainStep : digest.Digest -> digest.Digest -> digest.Digest;
  applyDiff : string -> v1.Descriptor -> error + v1.Descriptor;
  maxDepth : nat
}.

(** Field updates of [World]. *)
Definition setBlobs (w : World) (b : gmap digest.Digest bytes) : World :=
  {| blobs := b; imgs := imgs w; committed := committed w;
     active := active w; fetched := fetched w; commits := commits w |}.

Definition setImgs (w : World) (m : gmap string v1.Descriptor) : World :=
  {| blobs := blobs w; imgs := m; committed := committed w;
     active := active w; fetched := fetched w; commits := commits w |}.

Definition setSnapshots (w : World) (c a : gset string) : World :=
  {| blobs := blobs w; imgs := imgs w; committed := c;
     active := a; fetched := fetched w; commits := commits w |}.

Definition logFetch (w : World) (desc : v1.Descriptor) : World :=
  {| blobs := blobs w; imgs := imgs w; committed := committed w;
     active := active w; fetched := fetched w ++ [desc];
     commits := commits w |}.

Definition logCommit (w : World) (key : string) : World :=
  {| blobs := blobs w; imgs := imgs w; committed := committed w;
     active := active w; fetched := fetched w;
     commits := commits w ++ [key] |}.

Declare Scope remote_scope.
Delimit Scope remote_scope with remote.
Notation "x <~ m ;; k" := (remote_bind m (fun x => k))
  (at level 100, m at next level, right associativity) : remote_scope.
Open Scope remote_scope.

Section Model.
Variable R : Remote.

(** Modelled from the spec: [BlobStore.Get(digest) -> bytes], failing with
    [NotFound]. *)
Definition blobGet (dgst : digest.Digest) : remote World bytes := fun w =>
  match blobs w !! dgst with
  | Some p => (inr p, w)
  | None => (inl (ErrNotFound dgst), w)
  end.

(** Modelled from the spec: [content.ReadBlob] is a [Get] on the store. *)
Definition ReadBlob (store : content_Store) (dgst : digest.Digest)
    : remote World bytes :=
  blobGet dgst.

(** Modelled from the spec: the fetch handler.  A node already in the Blob
    Store is satisfied and not fetched again; otherwise its bytes are
    fetched, checked against the descriptor's digest and size, and stored
    under the digest. *)
Definition fetchHandler (fetcher : Fetcher) (desc : v1.Descriptor)
    : remote World (list v1.Descriptor) := fun w =>
  match blobs w !! v1.Digest desc with
  | Some _ => (inr [], w)
  | None =>
    let w1 := logFetch w desc in
    match fetcher desc with
    | inl e => (inl e, w1)
    | inr p =>
      if decide (digestOf R p = v1.Digest desc
                 ∧ Z.of_nat (length p) = v1.Size desc)
      then (inr [], setBlobs w1 (<[v1.Digest desc := p]> (blobs w1)))
      else (inl (ErrDigestMismatch (v1.Digest desc)), w1)
    end
  end.

(** Modelled from the spec: the children handler.  A manifest's children
    are its config and its layers, an index's children are its manifests,
    a config or a layer has none. *)
Definition childrenHandler (desc : v1.Descriptor)
    : remote World (list v1.Descriptor) :=
  match kindOf R (v1.MediaType desc) with
  | KManifest =>
    p <~ blobGet (v1.Digest desc) ;;
    match parseManifest R p with
    | inl e => remote_fail e
    | inr m => remote_ret (v1.Config m :: v1.Layers m)
    end
  | KIndex =>
    p <~ blobGet (v1.Digest desc) ;;
    match parseIndex R p with
    | inl e => remote_fail e
    | inr ms => remote_ret ms
    end
  | KLeaf => remote_ret []
  end.

(** Modelled from the spec: what a handler of the list [Pull] builds does
    for one node. *)
Definition runHandler (h : Handler Fetcher) (desc : v1.Descriptor)
    : remote World (list v1.Descriptor) :=
  match h with
  | FetchHandler _ fetcher => fetchHandler fetcher desc
  | ChildrenHandler _ => childrenHandler desc
  end.

(** Modelled from the spec: [images.Handlers], the ordered pipeline of
    handlers; the first handler that fails ends it. *)
Fixpoint Handlers (hs : list (Handler Fetcher)) (desc : v1.Descriptor)
    : remote World (list v1.Descriptor) :=
  match hs with
  | [] => remote_ret []
  | h :: rest =>
    children <~ runHandler h desc ;;
    more <~ Handlers rest desc ;;
    remote_ret (children ++ more)
  end.

(** Modelled from the spec: the nodes [descs] visited with [visit]; the
    first failure ends the walk.  The design document leaves the order
    among siblings open; they are visited in the order listed. *)
Fixpoint forEach (visit : v1.Descriptor -> remote World unit)
    (descs : list v1.Descriptor) : remote World unit :=
  match descs with
  | [] => remote_ret tt
  | desc :: rest => _ <~ visit desc ;; forEach visit rest
  end.

(** Modelled from the spec: [images.Dispatch], the walk of the content
    graph below [descs]: handle a node, then walk its children.  [fuel]
    bounds the depth of the walk; a graph deeper than that is refused. *)
Fixpoint Dispatch (fuel : nat) (hs : list (Handler Fetcher))
    (descs : list v1.Descriptor) : remote World unit :=
  match fuel with
  | O =>
    match descs with
    | [] => remote_ret tt
    | _ :: _ => remote_fail (ErrIO "content graph too deep")
    end
  | S fuel' =>
    forEach (fun desc =>
      children <~ Handlers hs desc ;;
      Dispatch fuel' hs children) descs
  end.

(** Modelled from the spec: [images.Image.RootFS], the diff-ID chain of the
    image, read from the config blob its manifest names. *)
Definition RootFS (image : images.Image) (store : content_Store)
    : remote World (list digest.Digest) :=
  p <~ blobGet (v1.Digest (images.Target image)) ;;
  match parseManifest R p with
  | inl e => remote_fail e
  | inr m =>
    cfg <~ blobGet (v1.Digest (v1.Config m)) ;;
    match parseConfig R cfg with
    | inl e => remote_fail e
    | inr diffIDs => remote_ret diffIDs
    end
  end.

(** Modelled from the spec: [Snapshotter.Prepare(key, parentKey) -> mounts].
    The parent, when there is one, must be committed; preparing a key that
    is committed already hands back its mounts and changes nothing.  The
    mounts of a snapshot are named by its key. *)
Definition Prepare (key parent : string) : remote World string := fun w =>
  if decide (parent ≠ "" ∧ parent ∉ committed w) then
    (inl (ErrNotFound parent), w)
  else if decide (key ∈ committed w) then (inr key, w)
  else (inr key, setSnapshots w (committed w) ({[key]} ∪ active w)).

(** Modelled from the spec: [Snapshotter.Commit(key) -> ()]. *)
Definition Commit (key : string) : remote World unit := fun w =>
  if decide (key ∈ active w) then
    (inr tt,
     logCommit
       (setSnapshots w ({[key]} ∪ committed w) (active w ∖ {[key]})) key)
  else if decide (key ∈ committed w) then (inr tt, w)
  else (inl (ErrNotFound key), w).

(** Modelled from the spec: an aborted layer application leaves no partial
    mount registered under its key: the uncommitted snapshot under [key],
    if there is one, is gone; committed snapshots are not touched. *)
Definition abandon (key : string) (w : World) : World :=
  setSnapshots w (committed w) (active w ∖ {[key]}).

(** Modelled from the spec: [DiffService.Apply(mounts, layerBlob)]. *)
Definition Apply (mounts : string) (blob : v1.Descriptor)
    : remote World v1.Descriptor := fun w =>
  (applyDiff R mounts blob, w).

(** Modelled from the spec: one layer of the Unpacker: prepare a mount
    keyed by the ChainID on top of the previous ChainID, apply the layer's
    blob, commit.  A ChainID that is committed already is left alone.  When
    a step fails the layer is aborted: its mount is either committed or
    absent, never left half applied under the ChainID. *)
Definition applyLayer (parent chainID : string) (layer : rootfs.Layer)
    : remote World unit := fun w =>
  if decide (chainID ∈ committed w) then (inr tt, w)
  else
    match (mounts <~ Prepare chainID parent ;;
           _ <~ Apply mounts (rootfs.Blob layer) ;;
           Commit chainID) w with
    | (inl e, w') => (inl e, abandon chainID w')
    | (inr u, w') => (inr u, w')
    end.

(** Modelled from the spec: the layers in order, each on the ChainID of the
    ones before it; the first failure ends the sequence. *)
Fixpoint applyLayersFrom (parent : string) (layers : list rootfs.Layer)
    : remote World digest.Digest :=
  match layers with
  | [] => remote_ret parent
  | layer :: rest =>
    let chainID := chainStep R parent (v1.Digest (rootfs.Diff layer)) in
    _ <~ applyLayer parent chainID layer ;;
    applyLayersFrom chainID rest
  end.

(** Modelled from the spec: [rootfs.ApplyLayers]; the empty string names
    the state before any layer. *)
Definition ApplyLayers (layers : list rootfs.Layer)
    (sn : snapshot_Snapshotter) (df : diff_DiffService)
    : remote World digest.Digest :=
  applyLayersFrom "" layers.

(** Modelled from the spec: [ImageStore.Put(name, Descriptor)], last write
    wins. *)
Definition imagePut (istore : images_Store) (name : string)
    (desc : v1.Descriptor) : remote World unit := fun w =>
  (inr tt, setImgs w (<[name := desc]> (imgs w))).

(** Modelled from the spec: [ImageStore.Get(name) -> Image]. *)
Definition imageGet (istore : images_Store) (name : string)
    : remote World images.Image := fun w =>
  match imgs w !! name with
  | Some desc => (inr {| images.Name := name; images.Target := desc |}, w)
  | None => (inl (ErrNotFound name), w)
  end.

(** Modelled from the spec: the resolver, [Resolve(ref)] failing with
    [NotFound] when the registry does not know the reference. *)
Definition resolver : Resolver World Fetcher :=
  {| Resolve := fun ref w => (registry R ref, w);
     ResolverFetcher := fun name w => (fetchers R name, w) |}.

(** Modelled from the spec: the collaborators of the client, put together.
    [MediaTypeImageLayer] is given the value of the OCI constant of that
    name. *)
Definition collab : Collab World Fetcher :=
  {| content_ReadBlob := ReadBlob;
     json_Unmarshal := parseManifest R;
     Image_RootFS := RootFS;
     rootfs_ApplyLayers := ApplyLayers;
     images_Dispatch := fun hs desc => Dispatch (maxDepth R) hs [desc];
     imagesStore_Put := imagePut;
     imagesStore_Get := imageGet;
     docker_NewResolver := resolver;
     MediaTypeImageLayer := "application/vnd.oci.image.layer.v1.tar" |}.
End Model.

(** Nothing that world [w] held is missing from world [w']: every blob is
    still stored with the same bytes, every image name is still registered
    and every committed snapshot is still committed. *)
Definition retains (w w' : World) : Prop :=
  blobs w ⊆ blobs w'
  /\ dom (imgs w) ⊆ dom (imgs w')
  /\ committed w ⊆ committed w'.

(** A remote operation that loses nothing, however it ends. *)
Definition keeps {A} (m : remote World A) : Prop :=
  forall w r w', m w = (r, w') -> retains w w'.

(** A function of the client that loses nothing, however it ends. *)
Definition keepsM {A} (m : M World Fetcher A) : Prop :=
  forall st r st', m st = (r, st') -> retains (world st) (world st').







(** A step [m] that has succeeded once can be replayed on any world whose
    Blob Store holds at least what the step left: it succeeds again with
    the same answer and changes nothing. *)
Definition replayable {A} (m : remote World A) : Prop :=
  forall w a w1,
    m w = (inr a, w1) ->
    blobs w ⊆ blobs w1
    /\ (forall w2, blobs w1 ⊆ blobs w2 -> m w2 = (inr a, w2)).

End Daemon.

(** ** A small registry to run the code on *)

Module Example.
Import Daemon.

Definition manifestType : string := "application/vnd.oci.image.manifest.v1+json".
Definition configType : string := "application/vnd.oci.image.config.v1+json".
Definition gzipLayerType : string := "application/vnd.oci.image.layer.v1.tar+gzip".

Definition layerBlob (dgst : digest.Digest) : v1.Descriptor :=
  {| v1.MediaType := gzipLayerType; v1.Digest := dgst; v1.Size := 1 |}.

Definition configBlob (dgst : digest.Digest) : v1.Descriptor :=
  {| v1.MediaType := configType; v1.Digest := dgst; v1.Size := 1 |}.

Definition manifestBlob (dgst : digest.Digest) : v1.Descriptor :=
  {| v1.MediaType := manifestType; v1.Digest := dgst; v1.Size := 1 |}.

(** Three images.  [busybox] has one layer [sha:abc] with diff ID
    [sha:def]; [broken] declares three layers but two diff IDs; [tiny]
    declares one layer and no diff ID. *)
Definition busyboxManifest : v1.Manifest :=
  {| v1.Config := configBlob "sha:c1"; v1.Layers := [layerBlob "sha:abc"] |}.

Definition brokenManifest : v1.Manifest :=
  {| v1.Config := configBlob "sha:c2";
     v1.Layers := [layerBlob "sha:l1"; layerBlob "sha:l2"; layerBlob "sha:l3"] |}.

Definition tinyManifest : v1.Manifest :=
  {| v1.Config := configBlob "sha:c3"; v1.Layers := [layerBlob "sha:abc"] |}.

(** Every blob of the registry is one byte long; the byte names it. *)
Definition blobOf (dgst : digest.Digest) : option bytes :=
  if decide (dgst = "sha:m1") then Some [Byte.x01]
  else if decide (dgst = "sha:c1") then Some [Byte.x02]
  else if decide (dgst = "sha:abc") then Some [Byte.x03]
  else if decide (dgst = "sha:m2") then Some [Byte.x04]
  else if decide (dgst = "sha:c2") then Some [Byte.x05]
  else if decide (dgst = "sha:m3") then Some [Byte.x06]
  else if decide (dgst = "sha:c3") then Some [Byte.x07]
  else if decide (dgst = "sha:l1") then Some [Byte.x08]
  else if decide (dgst = "sha:l2") then Some [Byte.x09]
  else if decide (dgst = "sha:l3") then Some [Byte.x0a]
  else None.

Definition exampleDigestOf (p : bytes) : digest.Digest :=
  match p with
  | [Byte.x01] => "sha:m1"
  | [Byte.x02] => "sha:c1"
  | [Byte.x03] => "sha:abc"
  | [Byte.x04] => "sha:m2"
  | [Byte.x05] => "sha:c2"
  | [Byte.x06] => "sha:m3"
  | [Byte.x07] => "sha:c3"
  | [Byte.x08] => "sha:l1"
  | [Byte.x09] => "sha:l2"
  | [Byte.x0a] => "sha:l3"
  | _ => "sha:unknown"
  end.

Definition exampleFetcher : Fetcher := fun desc =>
  match blobOf (v1.Digest desc) with
  | Some p => inr p
  | None => inl (ErrNotFound (v1.Digest desc))
  end.

Definition exampleRemote : Remote :=
  {| registry := fun ref =>
       if decide (ref = "busybox") then inr ("docker.io/library/busybox:latest", manifestBlob "sha:m1")
       else if decide (ref = "broken") then inr ("docker.io/library/broken:latest", manifestBlob "sha:m2")
       else if decide (ref = "ghost") then inr ("docker.io/library/ghost:latest", manifestBlob "sha:gone")
       else inl (ErrNotFound ref);
     fetchers := fun name => inr exampleFetcher;
     digestOf := exampleDigestOf;
     kindOf := fun mediaType =>
       if decide (mediaType = manifestType) then KManifest else KLeaf;
     parseManifest := fun p =>
       match p with
       | [Byte.x01] => inr busyboxManifest
       | [Byte.x04] => inr brokenManifest
       | [Byte.x06] => inr tinyManifest
       | _ => inl (ErrIO "unexpected end of JSON input")
       end;
     parseIndex := fun p => inl (ErrIO "unexpected end of JSON input");
     parseConfig := fun p =>
       match p with
       | [Byte.x02] => inr ["sha:def"]
       | [Byte.x05] => inr ["sha:d1"; "sha:d2"]
       | [Byte.x07] => inr []
       | _ => inl (ErrIO "unexpected end of JSON input")
       end;
     chainStep := fun parent diffID =>
       if decide (parent = "") then diffID else parent +:+ "+" +:+ diffID;
     applyDiff := fun mounts blob =>
       inr {| v1.MediaType := "application/vnd.oci.image.layer.v1.tar";
              v1.Digest := mounts; v1.Size := 0 |};
     maxDepth := 3 |}.

Definition emptyWorld : World :=
  {| blobs := ∅; imgs := ∅; committed := ∅; active := ∅; fetched := [];
     commits := [] |}.

(** A Blob Store that holds the manifests and configs of the three
    images. *)
Definition loadedWorld : World :=
  setBlobs emptyWorld
    (list_to_map
       [("sha:m1", [Byte.x01]); ("sha:c1", [Byte.x02]);
        ("sha:m2", [Byte.x04]); ("sha:c2", [Byte.x05]);
        ("sha:m3", [Byte.x06]); ("sha:c3", [Byte.x07])]).

(** A Blob Store whose blob [sha:m1] is not a manifest. *)
Definition garbledWorld : World :=
  setBlobs emptyWorld {[ "sha:m1" := [Byte.x00] ]}.

(** A Blob Store that holds the manifest of [busybox] but not its config. *)
Definition headlessWorld : World :=
  setBlobs emptyWorld {[ "sha:m1" := [Byte.x01] ]}.

Definition start (w : World) : State World Fetcher :=
  {| world := w; trace := [] |}.

Definition exampleClient : Client :=
  {| conn := {| conn_id := 1 |}; Runtime := "linux" |}.

Definition exampleUnpacker : snapshotUnpacker :=
  {| su_snapshotter := snapshotter exampleClient;
     su_store := content exampleClient;
     su_diff := diff exampleClient |}.

Definition busybox : images.Image :=
  {| images.Name := "docker.io/library/busybox:latest";
     images.Target := manifestBlob "sha:m1" |}.

Definition broken : images.Image :=
  {| images.Name := "docker.io/library/broken:latest";
     images.Target := manifestBlob "sha:m2" |}.

Definition tiny : images.Image :=
  {| images.Name := "docker.io/library/tiny:latest";
     images.Target := manifestBlob "sha:m3" |}.

Definition exampleCollab : Collab World Fetcher := collab exampleRemote.

(** The handlers [Pull] builds for [exampleClient]. *)
Definition exampleHandlers : list (Handler Fetcher) :=
  [FetchHandler (content exampleClient) exampleFetcher;
   ChildrenHandler (content exampleClient)].

(** The world a first dispatch of [busybox] leaves, starting from nothing. *)
Definition pulledWorld : World :=
  (images_Dispatch (Collab := exampleCollab) exampleHandlers
     (manifestBlob "sha:m1") emptyWorld).2.

(** That world once [busybox] is registered in the Image Store. *)
Definition registeredWorld : World :=
  setImgs pulledWorld
    {[ "docker.io/library/busybox:latest" := manifestBlob "sha:m1" ]}.
End Example.

(** ** A registry on which a pull and an unpack fail half way *)

Module Flaky.
Import Daemon Example.

(** The image [twolayer] has two layers, [sha:l1] and [sha:l2], with diff
    IDs [sha:d1] and [sha:d2].  The registry has lost the blob [sha:l2],
    and the diff service cannot apply it. *)
Definition twolayerManifest : v1.Manifest :=
  {| v1.Config := configBlob "sha:c4";
     v1.Layers := [layerBlob "sha:l1"; layerBlob "sha:l2"] |}.

Definition flakyFetcher : Fetcher := fun desc =>
  if decide (v1.Digest desc = "sha:m4") then inr [Byte.x0b]
  else if decide (v1.Digest desc = "sha:c4") then inr [Byte.x0c]
  else if decide (v1.Digest desc = "sha:l1") then inr [Byte.x08]
  else inl (ErrNotFound (v1.Digest desc)).

Definition flakyRemote : Remote :=
  {| registry := fun ref =>
       if decide (ref = "twolayer")
       then inr ("docker.io/library/twolayer:latest", manifestBlob "sha:m4")
       else inl (ErrNotFound ref);
     fetchers := fun name => inr flakyFetcher;
     digestOf := fun p =>
       match p with
       | [Byte.x0b] => "sha:m4"
       | [Byte.x0c] => "sha:c4"
       | [Byte.x08] => "sha:l1"
       | _ => "sha:unknown"
       end;
     kindOf := fun mediaType =>
       if decide (mediaType = manifestType) then KManifest else KLeaf;
     parseManifest := fun p =>
       match p with
       | [Byte.x0b] => inr twolayerManifest
       | _ => inl (ErrIO "unexpected end of JSON input")
       end;
     parseIndex := fun p => inl (ErrIO "unexpected end of JSON input");
     parseConfig := fun p =>
       match p with
       | [Byte.x0c] => inr ["sha:d1"; "sha:d2"]
       | _ => inl (ErrIO "unexpected end of JSON input")
       end;
     chainStep := fun parent diffID =>
       if decide (parent = "") then diffID else parent +:+ "+" +:+ diffID;
     applyDiff := fun mounts blob =>
       if decide (v1.Digest blob = "sha:l2") then inl (ErrIO "short read")
       else inr {| v1.MediaType := "application/vnd.oci.image.layer.v1.tar";
                   v1.Digest := mounts; v1.Size := 0 |};
     maxDepth := 3 |}.

Definition flakyCollab : Collab World Fetcher := collab flakyRemote.

Definition twolayer : images.Image :=
  {| images.Name := "docker.io/library/twolayer:latest";
     images.Target := manifestBlob "sha:m4" |}.

(** A Blob Store that holds the manifest and the config of [twolayer]. *)
Definition twolayerWorld : World :=
  setBlobs emptyWorld
    (list_to_map [("sha:m4", [Byte.x0b]); ("sha:c4", [Byte.x0c])]).
End Flaky.

(** The unpacker [WithPullUnpack] installs for client [c]. *)
Definition clientUnpacker (c : Client) : snapshotUnpacker :=
  {| su_snapshotter := snapshotter c;
     su_store := content c;
     su_diff := diff c |}.

(** The calls made between state [st] and a later state [st']. *)
Definition callsSince {W Fetcher : Type} (st st' : State W Fetcher)
    : list (Call Fetcher) :=
  drop (length (trace st)) (trace st').

(** The layer [getLayers] builds for diff ID [d] and manifest layer [b]. *)
Definition pairedLayer {W Fetcher : Type} {C : Collab W Fetcher}
    (d : digest.Digest) (b : v1.Descriptor) : rootfs.Layer :=
  {| rootfs.Diff := {| v1.MediaType := MediaTypeImageLayer;
                       v1.Digest := d;
                       v1.Size := 0 |};
     rootfs.Blob := b |}.

(** ** Containers and connections (client.go) *)

(** Package [protobuf]: the [Any] message. *)
Module protobuf.
Record Any := mkAny {
  TypeUrl : string;
  Value : bytes
}.
End protobuf.

(** Package [containers] of the API: the fields of [containers.Container]
    that client.go names; the others are kept as one opaque component. *)
Module containers.
Record Container {Rest : Type} := mkContainer {
  ID : string;
  Labels : option (gmap string string);
  Runtime : string;
  Spec : option protobuf.Any;
  RootFS : string;
  rest : Rest
}.
Arguments Container : clear implicits.

Definition setLabels {Rest} (c : Container Rest)
    (labels : option (gmap string string)) : Container Rest :=
  {| ID := ID c; Labels := labels; Runtime := Runtime c; Spec := Spec c;
     RootFS := RootFS c; rest := rest c |}.

Definition setRuntime {Rest} (c : Container Rest) (name : string)
    : Container Rest :=
  {| ID := ID c; Labels := Labels c; Runtime := name; Spec := Spec c;
     RootFS := RootFS c; rest := rest c |}.

Definition setRootFS {Rest} (c : Container Rest) (id : string)
    : Container Rest :=
  {| ID := ID c; Labels := Labels c; Runtime := Runtime c; Spec := Spec c;
     RootFS := id; rest := rest c |}.
End containers.

(** The service client built by [c.containers()]. *)
Record containers_ContainersClient := mkContainersClient {
  containers_conn : Conn
}.

Definition containers (c : Client) : containers_ContainersClient :=
  {| containers_conn := conn c |}.

Section Traced.
(** [W] is the state of everything outside the client process, [E] the
    type of the calls recorded. *)
Context {W E : Type}.

(** The state a function runs in: the world and the calls made so far,
    oldest first. *)
Record Run := mkRun {
  run_world : W;
  run_log : list E
}.

Definition T (A : Type) : Type := Run -> result A * Run.

Definition tret {A} (a : A) : T A := fun st => (Ok a, st).

Definition tpanic {A} (msg : string) : T A := fun st => (Panic msg, st).

Definition tbind {A B} (m : T A) (k : A -> T B) : T B := fun st =>
  match m st with
  | (Ok a, st') => k a st'
  | (Err e, st') => (Err e, st')
  | (Panic msg, st') => (Panic msg, st')
  end.

(** A library function returning [(A, error)] without touching the world. *)
Definition tliftE {A} (r : error + A) : T A := fun st =>
  match r with
  | inl e => (Err e, st)
  | inr a => (Ok a, st)
  end.

(** The state after call [e] left the world as [w]. *)
Definition logged (st : Run) (e : E) (w : W) : Run :=
  {| run_world := w; run_log := run_log st ++ [e] |}.

(** A collaborator call: run the remote operation on the world and record
    the call. *)
Definition tcall {A} (e : E) (op : remote W A) : T A := fun st =>
  match op (run_world st) with
  | (inl err, w) => (Err err, logged st e w)
  | (inr a, w) => (Ok a, logged st e w)
  end.

(** [if err != nil { return nil, errors.Wrapf(err, msg) }] *)
Definition twrapping {A} (m : T A) (msg : string) : T A := fun st =>
  match m st with
  | (Err e, st') => (Err (errors_Wrap e msg), st')
  | other => other
  end.

(** [for _, o := range opts { if err := o(x); err != nil { return nil, err } }]
    for options that update the value [x] they are given. *)
Fixpoint applyOpts {A} (opts : list (A -> T A)) (x : A) : T A :=
  match opts with
  | [] => tret x
  | o :: rest => tbind (o x) (applyOpts rest)
  end.
End Traced.

Arguments Run : clear implicits.
Arguments T : clear implicits.

Declare Scope traced_scope.
Delimit Scope traced_scope with traced.
Notation "x <-- m ;; k" := (tbind m (fun x => k))
  (at level 100, m at next level, right associativity) : traced_scope.
Open Scope traced_scope.

Section ContainerCode.
Context {W Fetcher : Type} {C : Collab W Fetcher}.
(** [Mounts] is [[]mount.Mount], [Rest] the fields of a container the
    client does not name, [SpecT] is [*specs.Spec] as [NewContainer] takes
    it, [ClientContainer] is the client's [*Container]. *)
Context {Mounts Rest SpecT ClientContainer : Type}.

(** The calls of the container and connection functions of client.go. *)
Inductive Event :=
| EvMounts (sn : snapshot_Snapshotter) (key : string)
| EvPrepare (sn : snapshot_Snapshotter) (key parent : string)
| EvView (sn : snapshot_Snapshotter) (key parent : string)
| EvRootFS (image : images.Image) (store : content_Store)
| EvCreate (cc : containers_ContainersClient)
    (container : containers.Container Rest)
| EvList (cc : containers_ContainersClient)
| EvDial (target : string)
| EvClose (cn : Conn).

(** What these functions import besides [Collab]: the snapshotter's
    methods, [identity.ChainID], [json.Marshal], [specs.Version], the
    containers service, [containerFromProto] (container.go), [grpc.Dial]
    with the client's fixed dial options, [dialAddress] (a platform file),
    [runtime.GOOS], the formatting of [%q], and the zero value of the
    container fields the client does not name. *)
Class ContainerCollab := mkContainerCollab {
  snapshotter_Mounts : snapshot_Snapshotter -> string -> remote W Mounts;
  snapshotter_Prepare :
    snapshot_Snapshotter -> string -> string -> remote W Mounts;
  snapshotter_View :
    snapshot_Snapshotter -> string -> string -> remote W Mounts;
  identity_ChainID : list digest.Digest -> digest.Digest;
  json_Marshal : SpecT -> error + bytes;
  specs_Version : string;
  containers_Create :
    containers_ContainersClient -> containers.Container Rest ->
    remote W (containers.Container Rest);
  containers_List :
    containers_ContainersClient -> remote W (list (containers.Container Rest));
  containerFromProto : Client -> containers.Container Rest -> ClientContainer;
  grpc_Dial : string -> remote W Conn;
  conn_Close : Conn -> remote W unit;
  dialAddress : string -> string;
  runtime_GOOS : string;
  strconv_Quote : string -> string;
  zeroRest : Rest
}.
Context {CC : ContainerCollab}.

(** [NewClientOpts]: the option updates the client it is given, or fails. *)
Definition NewClientOpts : Type := Client -> T W Event Client.

(** [New] *)
Definition New (address : string) (opts : list NewClientOpts)
    : T W Event Client :=
  conn <-- twrapping
             (tcall (EvDial (dialAddress address))
                    (grpc_Dial (dialAddress address)))
             ("failed to dial " +:+ strconv_Quote address) ;;
  let c := {| conn := conn; Runtime := runtime_GOOS |} in
  applyOpts opts c.

(** [(c *Client) Close] *)
Definition Close (c : Client) : T W Event unit :=
  tcall (EvClose (conn c)) (conn_Close (conn c)).

(** The loop of [Containers]: [out = append(out, containerFromProto(c,
    container))] for each listed container. *)
Definition Containers_loop (c : Client)
    (listed : list (containers.Container Rest)) : list ClientContainer :=
  fold_left (fun out container => out ++ [containerFromProto c container])
    listed [].

(** [(c *Client) Containers] *)
Definition Containers (c : Client) : T W Event (list ClientContainer) :=
  r <-- tcall (EvList (containers c)) (containers_List (containers c)) ;;
  tret (Containers_loop c r).

(** [NewContainerOpts]: the option updates the container it is given, or
    fails. *)
Definition NewContainerOpts : Type :=
  Client -> containers.Container Rest -> T W Event (containers.Container Rest).

Definition NewContainerWithLables (labels : option (gmap string string))
    : NewContainerOpts := fun _ c =>
  tret (containers.setLabels c labels).

Definition NewContainerWithExistingRootFS (id : string) : NewContainerOpts :=
  fun client c =>
    _ <-- tcall (EvMounts (snapshotter client) id)
                (snapshotter_Mounts (snapshotter client) id) ;;
    tret (containers.setRootFS c id).

(** [image] is a [*Image]; [image.i] on a nil pointer panics. *)
Definition NewContainerWithNewRootFS (id : string) (image : option Image)
    : NewContainerOpts := fun client c =>
  match image with
  | None => tpanic "invalid memory address or nil pointer dereference"
  | Some img =>
    diffIDs <-- tcall (EvRootFS (i img) (content client))
                      (Image_RootFS (i img) (content client)) ;;
    _ <-- tcall (EvPrepare (snapshotter client) id (identity_ChainID diffIDs))
                (snapshotter_Prepare (snapshotter client) id
                   (identity_ChainID diffIDs)) ;;
    tret (containers.setRootFS c id)
  end.

Definition NewContainerWithNewReadonlyRootFS (id : string)
    (image : option Image) : NewContainerOpts := fun client c =>
  match image with
  | None => tpanic "invalid memory address or nil pointer dereference"
  | Some img =>
    diffIDs <-- tcall (EvRootFS (i img) (content client))
                      (Image_RootFS (i img) (content client)) ;;
    _ <-- tcall (EvView (snapshotter client) id (identity_ChainID diffIDs))
                (snapshotter_View (snapshotter client) id
                   (identity_ChainID diffIDs)) ;;
    tret (containers.setRootFS c id)
  end.

Definition NewContainerWithRuntime (name : string) : NewContainerOpts :=
  fun client c => tret (containers.setRuntime c name).

(** The container [NewContainer] starts from. *)
Definition NewContainer_request (c : Client) (id : string) (data : bytes)
    : containers.Container Rest :=
  {| containers.ID := id;
     containers.Labels := None;
     containers.Runtime := Runtime c;
     containers.Spec :=
       Some {| protobuf.TypeUrl := specs_Version; protobuf.Value := data |};
     containers.RootFS := "";
     containers.rest := zeroRest |}.

(** [(c *Client) NewContainer] *)
Definition NewContainer (c : Client) (id : string) (spec : SpecT)
    (opts : list NewContainerOpts) : T W Event ClientContainer :=
  data <-- tliftE (json_Marshal spec) ;;
  let container := NewContainer_request c id data in
  container' <-- applyOpts (map (fun o => o c) opts) container ;;
  r <-- tcall (EvCreate (containers c) container')
              (containers_Create (containers c) container') ;;
  tret (containerFromProto c r).

(** The container options of client.go other than
    [NewContainerWithRuntime]. *)
Inductive otherOption : NewContainerOpts -> Prop :=
| other_Lables labels : otherOption (NewContainerWithLables labels)
| other_ExistingRootFS id :
    otherOption (NewContainerWithExistingRootFS id)
| other_NewRootFS id image : otherOption (NewContainerWithNewRootFS id image)
| other_NewReadonlyRootFS id image :
    otherOption (NewContainerWithNewReadonlyRootFS id image).
End ContainerCode.

Arguments Event : clear implicits.
Arguments ContainerCollab : clear implicits.
Arguments NewClientOpts : clear implicits.
Arguments NewContainerOpts : clear implicits.

(** The calls logged between state [st] and a later state [st']. *)
Definition eventsSince {W E : Type} (st st' : Run W E) : list E :=
  drop (length (run_log st)) (run_log st').

(** Calls that ask the snapshotter for a new writable snapshot. *)
Definition isPrepare {Rest : Type} (e : Event Rest) : bool :=
  match e with
  | EvPrepare _ _ _ => true
  | _ => false
  end.

(** Calls that ask the snapshotter for a new read-only view. *)
Definition isView {Rest : Type} (e : Event Rest) : bool :=
  match e with
  | EvView _ _ _ => true
  | _ => false
  end.

(** ** A small daemon to run the container functions on *)

Module ContainerExample.
Import Daemon Example.

Definition quoted (s : string) : string :=
  String (Ascii.ascii_of_nat 34) (s +:+ String (Ascii.ascii_of_nat 34) "").

(** Snapshots are looked up in the snapshotter of [Daemon]; a view is
    prepared like a writable snapshot; the containers service stores
    nothing and answers with the container it was sent; only the address
    [/run/containerd/containerd.sock] can be dialled. *)
Definition exampleContainerCollab
    : ContainerCollab World string unit (option (Spec unit unit))
        (Client * containers.Container unit) :=
  {| snapshotter_Mounts := fun sn key w =>
       if decide (key ∈ committed w ∨ key ∈ active w) then (inr key, w)
       else (inl (ErrNotFound key), w);
     snapshotter_Prepare := fun sn key parent => Prepare key parent;
     snapshotter_View := fun sn key parent => Prepare key parent;
     identity_ChainID := fun diffIDs =>
       foldl (chainStep exampleRemote) "" diffIDs;
     json_Marshal := fun spec =>
       match spec with
       | Some _ => inr [Byte.x7b; Byte.x7d]
       | None => inr [Byte.x6e; Byte.x75; Byte.x6c; Byte.x6c]
       end;
     specs_Version := "1.0.0-rc5";
     containers_Create := fun cc container w => (inr container, w);
     containers_List := fun cc w => (inr [], w);
     containerFromProto := fun c container => (c, container);
     grpc_Dial := fun target w =>
       if decide (target = "/run/containerd/containerd.sock")
       then (inr {| conn_id := 1 |}, w)
       else (inl (ErrIO "connection refused"), w);
     conn_Close := fun cn w => (inr tt, w);
     dialAddress := fun address => address;
     runtime_GOOS := "linux";
     strconv_Quote := quoted;
     zeroRest := tt |}.

Definition begin (w : World) : Run World (Event unit) :=
  {| run_world := w; run_log := [] |}.

(** The world after [busybox] has been pulled and unpacked into empty
    stores. *)
Definition unpackedWorld : World :=
  world (Pull (C := exampleCollab) exampleClient "busybox"
           [WithPullUnpack (C := exampleCollab)] (start emptyWorld)).2.

Definition busyboxImage : Image :=
  {| client := exampleClient; i := busybox |}.

Definition exampleSpec : option (Spec unit unit) :=
  Some {| spec_Process := Some {| Args := ["sh"]; process_rest := tt |};
          Annotations := None;
          spec_rest := tt |}.

(** A default spec for [GenerateSpec]. *)
Definition exampleDefaultSpec (id : string) : error + Spec unit unit :=
  inr {| spec_Process := Some {| Args := ["sh"]; process_rest := tt |};
         Annotations := None;
         spec_rest := tt |}.

(** A spec option that always fails. *)
Definition failingSpecOpt : SpecOpts unit unit := fun _ =>
  Err (ErrIO "bad option").

(** A pull option that always fails. *)
Definition failingPullOpt : PullOpts World Fetcher := fun _ _ =>
  throw (ErrIO "bad option").

(** A client option that always fails. *)
Definition failingClientOpt : NewClientOpts World unit := fun _ =>
  fun st => (Err (ErrIO "bad option"), st).
End ContainerExample.

(** * Properties of the client's code *)

Section ClientProperties.
Context {W Fetcher : Type} {C : Collab W Fetcher}.

Implicit Types (st : State W Fetcher) (s : snapshotUnpacker).
Implicit Types (image : images.Image) (manifest : v1.Manifest).
Implicit Types (diffIDs : list digest.Digest) (layers : list rootfs.Layer).

Lemma callsSince_after st c w :
  callsSince st (after st c w) = [c].
Proof.
  unfold callsSince, after; simpl.
  by rewrite drop_app_length.
Qed.

Lemma callsSince_after2 st c1 w1 c2 w2 :
  callsSince st (after (after st c1 w1) c2 w2) = [c1; c2].
Proof.
  unfold callsSince, after; simpl.
  by rewrite <- app_assoc, drop_app_length.
Qed.

Lemma callsSince_refl st : callsSince st st = [].
Proof. unfold callsSince. by rewrite drop_all. Qed.

(** *** The loop of [getLayers] *)

Lemma index_Ok {A} (xs : list A) k x : xs !! k = Some x -> index xs k = Ok x.
Proof. unfold index. by intros ->. Qed.

(** One turn of the loop writes both fields of [layers[k]] and nothing
    else; the turns for [k, k+1, ...] never panic while the three slices
    are long enough. *)
Lemma getLayers_loop_inv diffIDs manifest m :
  forall k layers,
    k + m <= length diffIDs ->
    k + m <= length (v1.Layers manifest) ->
    k + m <= length layers ->
    exists layers',
      getLayers_loop diffIDs manifest (seq k m) layers = Ok layers'
      /\ length layers' = length layers
      /\ (forall j, j < k \/ k + m <= j -> layers' !! j = layers !! j)
      /\ (forall j d b, k <= j < k + m ->
            diffIDs !! j = Some d -> v1.Layers manifest !! j = Some b ->
            layers' !! j = Some (pairedLayer d b)).
Proof.
  induction m as [|m IH]; intros k layers Hd Hl Hlen; simpl.
  - exists layers. repeat split; auto. intros; lia.
  - destruct (lookup_lt_is_Some_2 diffIDs k) as [d Hdk]; [lia|].
    destruct (lookup_lt_is_Some_2 (v1.Layers manifest) k) as [b Hbk]; [lia|].
    destruct (lookup_lt_is_Some_2 layers k) as [l Hlk]; [lia|].
    rewrite (index_Ok _ _ _ Hdk), (index_Ok _ _ _ Hlk); simpl.
    rewrite (index_Ok _ _ _ Hbk); simpl.
    erewrite index_Ok; last by (apply list_lookup_insert_eq; lia).
    simpl.
    set (layers2 := <[k:=_]> (<[k:=_]> layers)).
    assert (Hlen2 : length layers2 = length layers).
    { unfold layers2. by rewrite !length_insert. }
    destruct (IH (S k) layers2) as (layers' & Hrun & Hlen' & Hkeep & Hnew);
      [lia..|].
    exists layers'. split; [exact Hrun|].
    split; [lia|]. split.
    + intros j Hj. rewrite Hkeep by lia.
      unfold layers2. rewrite !list_lookup_insert_ne by lia. done.
    + intros j d' b' Hj Hdj Hbj.
      destruct (decide (j = k)) as [->|Hne].
      * rewrite Hkeep by lia. unfold layers2.
        rewrite list_lookup_insert_eq by (rewrite length_insert; lia).
        rewrite Hdk in Hdj. rewrite Hbk in Hbj.
        by simplify_eq.
      * apply Hnew; auto. lia.
Qed.

(** With equally many diff IDs and manifest layers the loop ends without a
    panic, in a slice as long as both. *)
Lemma getLayers_loop_total diffIDs manifest :
  length diffIDs = length (v1.Layers manifest) ->
  exists layers,
    getLayers_loop diffIDs manifest (seq 0 (length diffIDs))
      (replicate (length diffIDs) rootfs.zeroLayer) = Ok layers
    /\ length layers = length diffIDs
    /\ (forall j d b,
          diffIDs !! j = Some d -> v1.Layers manifest !! j = Some b ->
          layers !! j = Some (pairedLayer d b)).
Proof.
  intros Hlen.
  destruct (getLayers_loop_inv diffIDs manifest (length diffIDs) 0
              (replicate (length diffIDs) rootfs.zeroLayer))
    as (layers & Hrun & Hlen' & _ & Hnew).
  - lia.
  - lia.
  - rewrite length_replicate. lia.
  - exists layers. split; [exact Hrun|]. split.
    + by rewrite Hlen', length_replicate.
    + intros j d b Hd Hb. apply Hnew; auto.
      apply lookup_lt_Some in Hd. lia.
Qed.

(** *** The paths through [getLayers] *)

Ltac run_getLayers :=
  unfold snapshotUnpacker_Unpack, getLayers, bind, wrapping, call, liftE,
    lift, throw, ret; simpl.

Lemma getLayers_read_fails s image st e w1 :
  content_ReadBlob (su_store s) (v1.Digest (images.Target image)) (world st)
    = (inl e, w1) ->
  getLayers s image st =
    (Err (errors_Wrap e "failed to read manifest blob"),
     after st (CallReadBlob (su_store s) (v1.Digest (images.Target image))) w1).
Proof. intros Hread. run_getLayers. by rewrite Hread. Qed.

Lemma getLayers_parse_fails s image st p w1 e :
  content_ReadBlob (su_store s) (v1.Digest (images.Target image)) (world st)
    = (inr p, w1) ->
  json_Unmarshal p = inl e ->
  getLayers s image st =
    (Err (errors_Wrap e "failed to unmarshal manifest"),
     after st (CallReadBlob (su_store s) (v1.Digest (images.Target image))) w1).
Proof. intros Hread Hparse. run_getLayers. by rewrite Hread, Hparse. Qed.

Lemma getLayers_rootfs_fails s image st p w1 manifest e w2 :
  content_ReadBlob (su_store s) (v1.Digest (images.Target image)) (world st)
    = (inr p, w1) ->
  json_Unmarshal p = inr manifest ->
  Image_RootFS image (su_store s) w1 = (inl e, w2) ->
  getLayers s image st =
    (Err (errors_Wrap e "failed to resolve rootfs"),
     after (after st
              (CallReadBlob (su_store s) (v1.Digest (images.Target image))) w1)
           (CallRootFS image (su_store s)) w2).
Proof.
  intros Hread Hparse Hroot. run_getLayers.
  by rewrite Hread, Hparse; simpl; rewrite Hroot.
Qed.

Lemma getLayers_loaded s image st p w1 manifest diffIDs w2 :
  content_ReadBlob (su_store s) (v1.Digest (images.Target image)) (world st)
    = (inr p, w1) ->
  json_Unmarshal p = inr manifest ->
  Image_RootFS image (su_store s) w1 = (inr diffIDs, w2) ->
  getLayers s image st =
    (if (length diffIDs =? length (v1.Layers manifest))%nat then
       getLayers_loop diffIDs manifest (seq 0 (length diffIDs))
         (replicate (length diffIDs) rootfs.zeroLayer)
     else Err LayerMismatch,
     after (after st
              (CallReadBlob (su_store s) (v1.Digest (images.Target image))) w1)
           (CallRootFS image (su_store s)) w2).
Proof.
  intros Hread Hparse Hroot. run_getLayers.
  rewrite Hread, Hparse; simpl; rewrite Hroot.
  by destruct (length diffIDs =? length (v1.Layers manifest))%nat.
Qed.

(** A successful [getLayers] went through both reads and the length check. *)
Lemma getLayers_Ok_inv s image st layers st' :
  getLayers s image st = (Ok layers, st') ->
  exists p w1 manifest diffIDs w2,
    content_ReadBlob (su_store s) (v1.Digest (images.Target image)) (world st)
      = (inr p, w1)
    /\ json_Unmarshal p = inr manifest
    /\ Image_RootFS image (su_store s) w1 = (inr diffIDs, w2)
    /\ length diffIDs = length (v1.Layers manifest)
    /\ getLayers_loop diffIDs manifest (seq 0 (length diffIDs))
         (replicate (length diffIDs) rootfs.zeroLayer) = Ok layers.
Proof.
  intros Hrun.
  destruct (content_ReadBlob (su_store s) (v1.Digest (images.Target image))
              (world st)) as [[e|p] w1] eqn:Hread.
  { rewrite (getLayers_read_fails _ _ _ _ _ Hread) in Hrun. discriminate. }
  destruct (json_Unmarshal p) as [e|manifest] eqn:Hparse.
  { rewrite (getLayers_parse_fails _ _ _ _ _ _ Hread Hparse) in Hrun.
    discriminate. }
  destruct (Image_RootFS image (su_store s) w1) as [[e|diffIDs] w2] eqn:Hroot.
  { rewrite (getLayers_rootfs_fails _ _ _ _ _ _ _ _ Hread Hparse Hroot) in Hrun.
    discriminate. }
  rewrite (getLayers_loaded _ _ _ _ _ _ _ _ Hread Hparse Hroot) in Hrun.
  exists p, w1, manifest, diffIDs, w2.
  destruct (length diffIDs =? length (v1.Layers manifest))%nat eqn:Hlen;
    [|discriminate].
  apply Nat.eqb_eq in Hlen. by simplify_eq.
Qed.

(** [Unpack] hands back whatever error [getLayers] ends in, in the state
    [getLayers] left. *)
Lemma Unpack_getLayers_Err s image st e st' :
  getLayers s image st = (Err e, st') ->
  snapshotUnpacker_Unpack s image st = (Err e, st').
Proof. intros Hrun. unfold snapshotUnpacker_Unpack, bind. by rewrite Hrun. Qed.

(** ** The layer resolver *)

(** C1: once the manifest and the diff IDs have been read, [getLayers]
    succeeds exactly when there are as many diff IDs as manifest layers;
    otherwise it returns the [LayerMismatch] error, [Unpack] returns the
    same error, and the only calls made are the two reads: the snapshotter
    and the diff service are not reached and the world is as the second
    read left it. *)
Theorem getLayers_succeeds_iff_lengths_agree
    s image st p w1 manifest diffIDs w2 :
  content_ReadBlob (su_store s) (v1.Digest (images.Target image)) (world st)
    = (inr p, w1) ->
  json_Unmarshal p = inr manifest ->
  Image_RootFS image (su_store s) w1 = (inr diffIDs, w2) ->
  (isOk (getLayers s image st).1 = true
     <-> length diffIDs = length (v1.Layers manifest))
  /\ (length diffIDs <> length (v1.Layers manifest) ->
      exists st',
        getLayers s image st = (Err LayerMismatch, st')
        /\ snapshotUnpacker_Unpack s image st = (Err LayerMismatch, st')
        /\ world st' = w2
        /\ Forall (fun c => reachesSnapshotterOrDiff c = false)
             (callsSince st st')).
Proof.
  intros Hread Hparse Hroot.
  rewrite (getLayers_loaded _ _ _ _ _ _ _ _ Hread Hparse Hroot).
  split.
  - simpl. destruct (Nat.eqb_spec (length diffIDs) (length (v1.Layers manifest)))
      as [Heq|Hne].
    + destruct (getLayers_loop_total diffIDs manifest Heq) as (layers & -> & _).
      done.
    + simpl. split; [discriminate|done].
  - intros Hne. apply Nat.eqb_neq in Hne. rewrite Hne.
    eexists. split; [reflexivity|]. split; [|split].
    + apply Unpack_getLayers_Err.
      rewrite (getLayers_loaded _ _ _ _ _ _ _ _ Hread Hparse Hroot).
      by rewrite Hne.
    + reflexivity.
    + rewrite callsSince_after2. by repeat constructor.
Qed.

(** C2: a successful [getLayers] returns as many layers as the manifest
    declares, and at every index the layer's blob is the manifest's layer
    at that index and the layer's diff digest is the diff ID at that
    index. *)
Theorem getLayers_pairs_by_index s image st layers st' :
  getLayers s image st = (Ok layers, st') ->
  exists p w1 manifest diffIDs w2,
    content_ReadBlob (su_store s) (v1.Digest (images.Target image)) (world st)
      = (inr p, w1)
    /\ json_Unmarshal p = inr manifest
    /\ Image_RootFS image (su_store s) w1 = (inr diffIDs, w2)
    /\ length layers = length (v1.Layers manifest)
    /\ (forall k, k < length layers ->
          exists layer,
            layers !! k = Some layer
            /\ v1.Layers manifest !! k = Some (rootfs.Blob layer)
            /\ diffIDs !! k = Some (v1.Digest (rootfs.Diff layer))).
Proof.
  intros Hrun.
  destruct (getLayers_Ok_inv _ _ _ _ _ Hrun)
    as (p & w1 & manifest & diffIDs & w2 & Hread & Hparse & Hroot & Hlen & Hloop).
  exists p, w1, manifest, diffIDs, w2. repeat (split; [assumption|]).
  destruct (getLayers_loop_total diffIDs manifest Hlen)
    as (layers0 & Hloop0 & Hlen0 & Hat).
  rewrite Hloop in Hloop0. simplify_eq.
  split; [lia|].
  intros k Hk.
  destruct (lookup_lt_is_Some_2 diffIDs k) as [d Hd]; [lia|].
  destruct (lookup_lt_is_Some_2 (v1.Layers manifest) k) as [b Hb]; [lia|].
  exists (pairedLayer d b). by rewrite (Hat k d b Hd Hb).
Qed.

(** C9: a successful [getLayers] returns one layer for every layer of the
    manifest it read, at the same index and with that manifest layer as its
    blob, and the diff descriptor of every one of them has the uncompressed
    layer media type [MediaTypeImageLayer], whatever the media type of the
    manifest's layer blob is. *)
Theorem getLayers_diff_media_type s image st layers st' :
  getLayers s image st = (Ok layers, st') ->
  exists p w1 manifest diffIDs w2,
    content_ReadBlob (su_store s) (v1.Digest (images.Target image)) (world st)
      = (inr p, w1)
    /\ json_Unmarshal p = inr manifest
    /\ Image_RootFS image (su_store s) w1 = (inr diffIDs, w2)
    /\ length layers = length (v1.Layers manifest)
    /\ Forall (fun layer =>
                v1.MediaType (rootfs.Diff layer) = MediaTypeImageLayer) layers
    /\ (forall k blob,
          v1.Layers manifest !! k = Some blob ->
          exists layer,
            layers !! k = Some layer
            /\ rootfs.Blob layer = blob
            /\ v1.MediaType (rootfs.Diff layer) = MediaTypeImageLayer).
Proof.
  intros Hrun.
  destruct (getLayers_Ok_inv _ _ _ _ _ Hrun)
    as (p & w1 & manifest & diffIDs & w2 & Hread & Hparse & Hroot & Hlen
        & Hloop).
  exists p, w1, manifest, diffIDs, w2. repeat (split; [assumption|]).
  destruct (getLayers_loop_total diffIDs manifest Hlen)
    as (layers0 & Hloop0 & Hlen0 & Hat).
  rewrite Hloop in Hloop0. simplify_eq.
  split; [lia|]. split.
  - apply Forall_lookup. intros k layer Hk.
    pose proof (lookup_lt_Some _ _ _ Hk) as Hlt.
    destruct (lookup_lt_is_Some_2 diffIDs k) as [d Hd]; [lia|].
    destruct (lookup_lt_is_Some_2 (v1.Layers manifest) k) as [b Hb]; [lia|].
    rewrite (Hat k d b Hd Hb) in Hk. by simplify_eq.
  - intros k blob Hb.
    pose proof (lookup_lt_Some _ _ _ Hb) as Hlt.
    destruct (lookup_lt_is_Some_2 diffIDs k) as [d Hd]; [lia|].
    exists (pairedLayer d blob). by rewrite (Hat k d blob Hd Hb).
Qed.

(** C5, as the code has it: on a mismatch [getLayers] fails with one fixed
    error, [errors.Errorf("mismatched image rootfs and manifest layers")],
    the same for every pair of lengths. *)
Theorem getLayers_mismatch_fixed_error s image st p w1 manifest diffIDs w2 :
  content_ReadBlob (su_store s) (v1.Digest (images.Target image)) (world st)
    = (inr p, w1) ->
  json_Unmarshal p = inr manifest ->
  Image_RootFS image (su_store s) w1 = (inr diffIDs, w2) ->
  length diffIDs <> length (v1.Layers manifest) ->
  (getLayers s image st).1
    = Err (errors_Errorf "mismatched image rootfs and manifest layers").
Proof.
  intros Hread Hparse Hroot Hne.
  rewrite (getLayers_loaded _ _ _ _ _ _ _ _ Hread Hparse Hroot).
  apply Nat.eqb_neq in Hne. by rewrite Hne.
Qed.

(** C6: [getLayers] first reads the blob named by [image.Target.Digest]
    from the unpacker's store and then asks for the image's diff IDs on the
    same store.  When the read fails, the manifest does not parse, or the
    diff IDs cannot be resolved, [getLayers] returns the wrapped error and
    [Unpack] returns it in the same state, with neither the snapshotter nor
    the diff service reached. *)
Theorem getLayers_propagates_load_errors s image st :
  let readCall :=
    CallReadBlob (su_store s) (v1.Digest (images.Target image)) in
  let rootCall := CallRootFS image (su_store s) in
  let fails e st' :=
    getLayers s image st = (Err e, st')
    /\ snapshotUnpacker_Unpack s image st = (Err e, st')
    /\ Forall (fun c => reachesSnapshotterOrDiff c = false)
         (callsSince st st') in
  (exists rest,
     callsSince st (getLayers s image st).2 = readCall :: rest
     /\ (rest = [] \/ rest = [rootCall]))
  /\ (forall e w1,
       content_ReadBlob (su_store s) (v1.Digest (images.Target image))
         (world st) = (inl e, w1) ->
       fails (errors_Wrap e "failed to read manifest blob")
             (after st readCall w1))
  /\ (forall p w1 e,
       content_ReadBlob (su_store s) (v1.Digest (images.Target image))
         (world st) = (inr p, w1) ->
       json_Unmarshal p = inl e ->
       fails (errors_Wrap e "failed to unmarshal manifest")
             (after st readCall w1))
  /\ (forall p w1 manifest e w2,
       content_ReadBlob (su_store s) (v1.Digest (images.Target image))
         (world st) = (inr p, w1) ->
       json_Unmarshal p = inr manifest ->
       Image_RootFS image (su_store s) w1 = (inl e, w2) ->
       fails (errors_Wrap e "failed to resolve rootfs")
             (after (after st readCall w1) rootCall w2)).
Proof.
  intros readCall rootCall fails. unfold fails. clear fails.
  split; [|split; [|split]].
  - destruct (content_ReadBlob (su_store s) (v1.Digest (images.Target image))
                (world st)) as [[e|p] w1] eqn:Hread.
    { rewrite (getLayers_read_fails _ _ _ _ _ Hread); simpl.
      exists []. rewrite callsSince_after. auto. }
    destruct (json_Unmarshal p) as [e|manifest] eqn:Hparse.
    { rewrite (getLayers_parse_fails _ _ _ _ _ _ Hread Hparse); simpl.
      exists []. rewrite callsSince_after. auto. }
    destruct (Image_RootFS image (su_store s) w1) as [[e|diffIDs] w2] eqn:Hroot.
    { rewrite (getLayers_rootfs_fails _ _ _ _ _ _ _ _ Hread Hparse Hroot); simpl.
      exists [rootCall]. rewrite callsSince_after2. auto. }
    rewrite (getLayers_loaded _ _ _ _ _ _ _ _ Hread Hparse Hroot); simpl.
    exists [rootCall]. rewrite callsSince_after2. auto.
  - intros e w1 Hread.
    pose proof (getLayers_read_fails _ _ _ _ _ Hread) as Hrun.
    split; [exact Hrun|]. split; [by apply Unpack_getLayers_Err|].
    rewrite callsSince_after. by repeat constructor.
  - intros p w1 e Hread Hparse.
    pose proof (getLayers_parse_fails _ _ _ _ _ _ Hread Hparse) as Hrun.
    split; [exact Hrun|]. split; [by apply Unpack_getLayers_Err|].
    rewrite callsSince_after. by repeat constructor.
  - intros p w1 manifest e w2 Hread Hparse Hroot.
    pose proof (getLayers_rootfs_fails _ _ _ _ _ _ _ _ Hread Hparse Hroot)
      as Hrun.
    split; [exact Hrun|]. split; [by apply Unpack_getLayers_Err|].
    rewrite callsSince_after2. by repeat constructor.
Qed.

(** ** Pull *)

Lemma callsSince_app st st' calls :
  trace st' = trace st ++ calls -> callsSince st st' = calls.
Proof. unfold callsSince. intros ->. by rewrite drop_app_length. Qed.

(** C3: once the options have been applied, [Pull] resolves the reference,
    obtains a fetcher for the resolved name, dispatches from the resolved
    descriptor, puts (name, descriptor) into the image store, gets the image
    back and, only with an unpacker set, unpacks it, in this order.  The
    first stage to return an error ends [Pull] with that error and no
    image, in the state that stage left: the calls recorded are those up to
    the failing stage and none after it.  When the dispatch fails, no call
    to the image store is made. *)
Theorem Pull_runs_stages_in_order c ref opts st pullCtx st0 :
  applyPullOpts opts c defaultPullContext st = (Ok pullCtx, st0) ->
  let r := pc_Resolver pullCtx in
  let run := Pull c ref opts st in
  (forall e w1,
     Resolve r ref (world st0) = (inl e, w1) ->
     run = (Err e, after st0 (CallResolve ref) w1))
  /\ (forall name desc w1,
       Resolve r ref (world st0) = (inr (name, desc), w1) ->
       let st1 := after st0 (CallResolve ref) w1 in
       (forall e w2,
          ResolverFetcher r name w1 = (inl e, w2) ->
          run = (Err e, after st1 (CallFetcher name) w2))
       /\ (forall fetcher w2,
            ResolverFetcher r name w1 = (inr fetcher, w2) ->
            let st2 := after st1 (CallFetcher name) w2 in
            let handlers :=
              [FetchHandler (content c) fetcher; ChildrenHandler (content c)] in
            (forall e w3,
               images_Dispatch handlers desc w2 = (inl e, w3) ->
               run = (Err e, after st2 (CallDispatch handlers desc) w3)
               /\ callsSince st0 run.2
                  = [CallResolve ref; CallFetcher name;
                     CallDispatch handlers desc])
            /\ (forall u w3,
                 images_Dispatch handlers desc w2 = (inr u, w3) ->
                 let st3 := after st2 (CallDispatch handlers desc) w3 in
                 (forall e w4,
                    imagesStore_Put (images c) name desc w3 = (inl e, w4) ->
                    run = (Err e,
                           after st3 (CallImagePut (images c) name desc) w4))
                 /\ (forall u' w4,
                      imagesStore_Put (images c) name desc w3 = (inr u', w4) ->
                      let st4 :=
                        after st3 (CallImagePut (images c) name desc) w4 in
                      (forall e w5,
                         imagesStore_Get (images c) name w4 = (inl e, w5) ->
                         run = (Err e,
                                after st4 (CallImageGet (images c) name) w5))
                      /\ (forall img w5,
                           imagesStore_Get (images c) name w4 = (inr img, w5) ->
                           let st5 :=
                             after st4 (CallImageGet (images c) name) w5 in
                           callsSince st0 st5
                             = [CallResolve ref; CallFetcher name;
                                CallDispatch handlers desc;
                                CallImagePut (images c) name desc;
                                CallImageGet (images c) name]
                           /\
                           match pc_Unpacker pullCtx with
                           | None =>
                             run = (Ok {| client := c; i := img |}, st5)
                           | Some u =>
                             match Unpack u img st5 with
                             | (Ok _, st6) =>
                               run = (Ok {| client := c; i := img |}, st6)
                             | (Err e, st6) => run = (Err e, st6)
                             | (Panic msg, st6) => run = (Panic msg, st6)
                             end
                           end))))).
Proof.
  intros Hopts r run. subst run r.
  unfold Pull, bind, call, ret. rewrite Hopts. simpl.
  split.
  { intros e w1 ->. reflexivity. }
  intros name desc w1 ->. simpl.
  split.
  { intros e w2 ->. reflexivity. }
  intros fetcher w2 ->. simpl.
  split.
  { intros e w3 ->. split; [reflexivity|].
    apply callsSince_app. simpl. by rewrite <- !app_assoc. }
  intros u w3 ->. simpl.
  split.
  { intros e w4 ->. reflexivity. }
  intros u' w4 ->. simpl.
  split.
  { intros e w5 ->. reflexivity. }
  intros img w5 ->. simpl.
  split.
  { apply callsSince_app. simpl. by rewrite <- !app_assoc. }
  destruct (pc_Unpacker pullCtx) as [u0|]; [|reflexivity].
  by destruct (Unpack u0 img _) as [[[]|e|msg] st6].
Qed.

(** C7: the default pull context has no unpacker, and a [Pull] without
    options makes no call that reaches the snapshotter or the diff service.
    [WithPullUnpack] sets the unpacker to a [snapshotUnpacker] on the
    client's content store, diff service and snapshotter and leaves the
    resolver alone.  With that option, once the image has been read back
    from the image store, [Pull] runs [Unpack] on that image and returns
    its error, or the image when it succeeds. *)
Theorem Pull_unpacks_only_on_request c ref st :
  pc_Unpacker defaultPullContext = None
  /\ Forall (fun call => reachesSnapshotterOrDiff call = false)
       (callsSince st (Pull c ref [] st).2)
  /\ (forall pullCtx st0,
       WithPullUnpack c pullCtx st0 =
         (Ok {| pc_Resolver := pc_Resolver pullCtx;
                pc_Unpacker := Some (asUnpacker (clientUnpacker c)) |}, st0))
  /\ (forall name desc w1 fetcher w2 u w3 u' w4 img w5,
       Resolve docker_NewResolver ref (world st) = (inr (name, desc), w1) ->
       ResolverFetcher docker_NewResolver name w1 = (inr fetcher, w2) ->
       let handlers :=
         [FetchHandler (content c) fetcher; ChildrenHandler (content c)] in
       images_Dispatch handlers desc w2 = (inr u, w3) ->
       imagesStore_Put (images c) name desc w3 = (inr u', w4) ->
       imagesStore_Get (images c) name w4 = (inr img, w5) ->
       let st5 :=
         {| world := w5;
            trace := trace st ++
              [CallResolve ref; CallFetcher name; CallDispatch handlers desc;
               CallImagePut (images c) name desc;
               CallImageGet (images c) name] |} in
       Pull c ref [WithPullUnpack] st =
         match snapshotUnpacker_Unpack (clientUnpacker c) img st5 with
         | (Ok _, st6) => (Ok {| client := c; i := img |}, st6)
         | (Err e, st6) => (Err e, st6)
         | (Panic msg, st6) => (Panic msg, st6)
         end).
Proof.
  split; [reflexivity|]. split; [|split].
  - unfold Pull, bind, call, ret. simpl.
    destruct (Resolve docker_NewResolver ref (world st))
      as [[e|[name desc]] w1]; simpl.
    { rewrite callsSince_after. by repeat constructor. }
    destruct (ResolverFetcher docker_NewResolver name w1)
      as [[e|fetcher] w2]; simpl.
    { rewrite callsSince_after2. by repeat constructor. }
    destruct (images_Dispatch _ desc w2) as [[e|u] w3]; simpl.
    { erewrite callsSince_app
        by (simpl; rewrite <- !app_assoc; reflexivity).
      by repeat constructor. }
    destruct (imagesStore_Put (images c) name desc w3) as [[e|u'] w4]; simpl.
    { erewrite callsSince_app
        by (simpl; rewrite <- !app_assoc; reflexivity).
      by repeat constructor. }
    destruct (imagesStore_Get (images c) name w4) as [[e|img] w5]; simpl.
    { erewrite callsSince_app
        by (simpl; rewrite <- !app_assoc; reflexivity).
      by repeat constructor. }
    erewrite callsSince_app
      by (simpl; rewrite <- !app_assoc; reflexivity).
    by repeat constructor.
  - reflexivity.
  - intros name desc w1 fetcher w2 u w3 u' w4 img w5
      Hres Hfetch handlers Hdisp Hput Hget.
    intros st5. subst st5.
    unfold Pull, bind, call, ret. simpl.
    rewrite Hres; simpl. rewrite Hfetch; simpl. fold handlers.
    rewrite Hdisp; simpl. rewrite Hput; simpl. rewrite Hget; simpl.
    unfold after; simpl. rewrite <- !app_assoc. simpl.
    by destruct (snapshotUnpacker_Unpack _ img _) as [[[]|e|msg] st6].
Qed.
End ClientProperties.

(** ** Spec options *)

Section SpecOptionProperties.
Context {ProcessRest SpecRest : Type}.

(** C10: on a spec whose [Process] is set, [WithArgs] stores exactly the
    given arguments in [Process.Args] and leaves every other field as it
    was; on a spec whose [Process] is nil the assignment dereferences a nil
    pointer and the option panics. *)
Theorem WithArgs_sets_Args_or_panics
    (args : list string) (s : Spec ProcessRest SpecRest) :
  match spec_Process s with
  | Some p =>
    WithArgs args s =
      Ok {| spec_Process := Some {| Args := args;
                                    process_rest := process_rest p |};
            Annotations := Annotations s;
            spec_rest := spec_rest s |}
  | None =>
    WithArgs args s =
      Panic "invalid memory address or nil pointer dereference"
  end.
Proof. unfold WithArgs. by destruct (spec_Process s). Qed.
End SpecOptionProperties.

(** * Properties of the collaborators as the design document has them *)

Section DaemonProperties.
Import Daemon.
Variable R : Remote.

Implicit Types (w : World) (desc : v1.Descriptor) (hs : list (Handler Fetcher)).

(** ** Dispatch *)

Lemma replayable_ret {A} (a : A) : replayable (remote_ret a).
Proof.
  intros w a' w1 Heq. unfold remote_ret in *. simplify_eq. done.
Qed.

Lemma replayable_bind {A B} (m : remote World A) (k : A -> remote World B) :
  replayable m -> (forall a, replayable (k a)) -> replayable (remote_bind m k).
Proof.
  intros Hm Hk w b w2 Hrun. unfold remote_bind in Hrun.
  destruct (m w) as [[e|a] w1] eqn:Hmw; [discriminate|].
  destruct (Hm _ _ _ Hmw) as [Hsub1 Hre1].
  destruct (Hk a _ _ _ Hrun) as [Hsub2 Hre2].
  split; [by etrans|].
  intros w3 Hsub3. unfold remote_bind.
  rewrite (Hre1 w3) by (by etrans). by apply Hre2.
Qed.

Lemma replayable_blobGet dgst : replayable (blobGet dgst).
Proof.
  intros w p w1 Hrun. unfold blobGet in *.
  destruct (blobs w !! dgst) as [p'|] eqn:Hlook; [|discriminate].
  simplify_eq. split; [done|].
  intros w2 Hsub. by rewrite (lookup_weaken _ _ _ _ Hlook Hsub).
Qed.

Lemma replayable_fetchHandler (fetcher : Fetcher) desc :
  replayable (fetchHandler R fetcher desc).
Proof.
  intros w children w1 Hrun. unfold fetchHandler in *.
  destruct (blobs w !! v1.Digest desc) as [p|] eqn:Hlook.
  - simplify_eq. split; [done|].
    intros w2 Hsub. by rewrite (lookup_weaken _ _ _ _ Hlook Hsub).
  - destruct (fetcher desc) as [e|p]; [discriminate|].
    destruct (decide _) as [_|_]; [|discriminate].
    simplify_eq. simpl. split.
    + by apply insert_subseteq.
    + intros w2 Hsub.
      by rewrite (lookup_weaken _ _ (v1.Digest desc) p
                    (lookup_insert_eq _ _ _) Hsub).
Qed.

Lemma replayable_childrenHandler desc : replayable (childrenHandler R desc).
Proof.
  unfold childrenHandler. destruct (kindOf R (v1.MediaType desc)).
  - apply replayable_bind; [apply replayable_blobGet|].
    intros p. destruct (parseManifest R p); [|apply replayable_ret].
    intros w a w1 Hrun. discriminate.
  - apply replayable_bind; [apply replayable_blobGet|].
    intros p. destruct (parseIndex R p); [|apply replayable_ret].
    intros w a w1 Hrun. discriminate.
  - apply replayable_ret.
Qed.

Lemma replayable_Handlers hs desc : replayable (Handlers R hs desc).
Proof.
  induction hs as [|h hs IH]; simpl.
  - apply replayable_ret.
  - apply replayable_bind.
    + destruct h; [apply replayable_fetchHandler|apply replayable_childrenHandler].
    + intros children. apply replayable_bind; [exact IH|].
      intros more. apply replayable_ret.
Qed.

Lemma replayable_forEach (visit : v1.Descriptor -> remote World unit) descs :
  (forall desc, replayable (visit desc)) -> replayable (forEach visit descs).
Proof.
  intros Hvisit. induction descs as [|desc descs IH]; simpl.
  - apply replayable_ret.
  - apply replayable_bind; [apply Hvisit|]. intros _. exact IH.
Qed.

Lemma replayable_Dispatch fuel hs descs : replayable (Dispatch R fuel hs descs).
Proof.
  revert descs. induction fuel as [|fuel IH]; intros descs; simpl.
  - destruct descs; [apply replayable_ret|].
    intros w a w1 Hrun. discriminate.
  - apply replayable_forEach. intros desc.
    apply replayable_bind; [apply replayable_Handlers|].
    intros children. apply IH.
Qed.

(** C4: when the dispatch [Pull] runs (fetch handler, then children
    handler, from the root descriptor) has succeeded, running it again on
    the world it left, or on any world whose Blob Store holds at least
    those blobs, succeeds and leaves that world as it was: nothing is added
    to the log of fetches and the Blob Store is unchanged. *)
Theorem Dispatch_again_fetches_nothing
    (store : content_Store) (fetcher : Fetcher) desc w w1 :
  let handlers := [FetchHandler store fetcher; ChildrenHandler store] in
  images_Dispatch (Collab := collab R) handlers desc w = (inr tt, w1) ->
  images_Dispatch (Collab := collab R) handlers desc w1 = (inr tt, w1)
  /\ (forall w2,
       blobs w1 ⊆ blobs w2 ->
       exists w3,
         images_Dispatch (Collab := collab R) handlers desc w2 = (inr tt, w3)
         /\ fetched w3 = fetched w2
         /\ blobs w3 = blobs w2).
Proof.
  intros handlers Hrun. simpl in *.
  destruct (replayable_Dispatch _ _ _ _ _ _ Hrun) as [_ Hreplay].
  split; [by apply Hreplay|].
  intros w2 Hsub. exists w2. by rewrite (Hreplay w2 Hsub).
Qed.

(** ** Nothing is removed *)

Lemma retains_refl w : retains w w.
Proof. by repeat split. Qed.

Lemma retains_trans w1 w2 w3 : retains w1 w2 -> retains w2 w3 -> retains w1 w3.
Proof.
  intros (Hb1 & Hi1 & Hc1) (Hb2 & Hi2 & Hc2).
  repeat split; by etrans.
Qed.

Lemma keeps_ret {A} (a : A) : keeps (remote_ret a).
Proof. intros w r w' Heq. unfold remote_ret in Heq. simplify_eq. apply retains_refl. Qed.

Lemma keeps_fail {A} e : keeps (remote_fail (A := A) e).
Proof. intros w r w' Heq. unfold remote_fail in Heq. simplify_eq. apply retains_refl. Qed.

Lemma keeps_bind {A B} (m : remote World A) (k : A -> remote World B) :
  keeps m -> (forall a, keeps (k a)) -> keeps (remote_bind m k).
Proof.
  intros Hm Hk w r w' Hrun. unfold remote_bind in Hrun.
  destruct (m w) as [[e|a] w1] eqn:Hmw.
  - simplify_eq. by eapply Hm.
  - eapply retains_trans; [by eapply Hm|by eapply Hk].
Qed.

Lemma keeps_blobGet dgst : keeps (blobGet dgst).
Proof.
  intros w r w' Hrun. unfold blobGet in Hrun.
  destruct (blobs w !! dgst); simplify_eq; apply retains_refl.
Qed.

Lemma keeps_fetchHandler (fetcher : Fetcher) desc :
  keeps (fetchHandler R fetcher desc).
Proof.
  intros w r w' Hrun. unfold fetchHandler in Hrun.
  destruct (blobs w !! v1.Digest desc) as [p|] eqn:Hlook.
  { simplify_eq. apply retains_refl. }
  destruct (fetcher desc) as [e|p].
  { simplify_eq. by repeat split. }
  destruct (decide _) as [_|_]; simplify_eq; [|by repeat split].
  repeat split; simpl; [|done..]. by apply insert_subseteq.
Qed.

Lemma keeps_childrenHandler desc : keeps (childrenHandler R desc).
Proof.
  unfold childrenHandler. destruct (kindOf R (v1.MediaType desc)).
  - apply keeps_bind; [apply keeps_blobGet|].
    intros p. destruct (parseManifest R p); [apply keeps_fail|apply keeps_ret].
  - apply keeps_bind; [apply keeps_blobGet|].
    intros p. destruct (parseIndex R p); [apply keeps_fail|apply keeps_ret].
  - apply keeps_ret.
Qed.

Lemma keeps_Handlers hs desc : keeps (Handlers R hs desc).
Proof.
  induction hs as [|h hs IH]; simpl; [apply keeps_ret|].
  apply keeps_bind.
  - destruct h; [apply keeps_fetchHandler|apply keeps_childrenHandler].
  - intros children. apply keeps_bind; [exact IH|]. intros more. apply keeps_ret.
Qed.

Lemma keeps_forEach (visit : v1.Descriptor -> remote World unit) descs :
  (forall desc, keeps (visit desc)) -> keeps (forEach visit descs).
Proof.
  intros Hvisit. induction descs as [|desc descs IH]; simpl; [apply keeps_ret|].
  apply keeps_bind; [apply Hvisit|]. intros _. exact IH.
Qed.

Lemma keeps_Dispatch fuel hs descs : keeps (Dispatch R fuel hs descs).
Proof.
  revert descs. induction fuel as [|fuel IH]; intros descs; simpl.
  - destruct descs; [apply keeps_ret|apply keeps_fail].
  - apply keeps_forEach. intros desc.
    apply keeps_bind; [apply keeps_Handlers|]. intros children. apply IH.
Qed.

Lemma keeps_RootFS image store : keeps (RootFS R image store).
Proof.
  unfold RootFS. apply keeps_bind; [apply keeps_blobGet|]. intros p.
  destruct (parseManifest R p) as [e|m]; [apply keeps_fail|].
  apply keeps_bind; [apply keeps_blobGet|]. intros cfg.
  destruct (parseConfig R cfg); [apply keeps_fail|apply keeps_ret].
Qed.

Lemma keeps_Prepare key parent : keeps (Prepare key parent).
Proof.
  intros w r w' Hrun. unfold Prepare in Hrun.
  repeat case_decide; simplify_eq; by repeat split.
Qed.

Lemma keeps_Apply mounts blob : keeps (Apply R mounts blob).
Proof.
  intros w r w' Hrun. unfold Apply in Hrun. simplify_eq. apply retains_refl.
Qed.

Lemma keeps_Commit key : keeps (Commit key).
Proof.
  intros w r w' Hrun. unfold Commit in Hrun.
  repeat case_decide; simplify_eq; repeat split; simpl; try done.
  set_solver.
Qed.

Lemma keeps_applyLayer parent chainID layer :
  keeps (applyLayer R parent chainID layer).
Proof.
  intros w r w' Hrun. unfold applyLayer in Hrun.
  case_decide; [simplify_eq; apply retains_refl|].
  destruct ((mounts <~ Prepare chainID parent ;;
             _ <~ Apply R mounts (rootfs.Blob layer) ;;
             Commit chainID) w) as [[e|u] w1] eqn:Hsteps.
  - simplify_eq. apply (retains_trans _ w1); [|by repeat split].
    eapply keeps_bind; [apply keeps_Prepare| |exact Hsteps]. intros mounts.
    apply keeps_bind; [apply keeps_Apply|]. intros _. apply keeps_Commit.
  - simplify_eq.
    eapply keeps_bind; [apply keeps_Prepare| |exact Hsteps]. intros mounts.
    apply keeps_bind; [apply keeps_Apply|]. intros _. apply keeps_Commit.
Qed.

Lemma keeps_applyLayersFrom parent layers :
  keeps (applyLayersFrom R parent layers).
Proof.
  revert parent. induction layers as [|layer layers IH]; intros parent; simpl.
  - apply keeps_ret.
  - apply keeps_bind; [apply keeps_applyLayer|]. intros _. apply IH.
Qed.

Lemma keeps_imagePut istore name desc : keeps (imagePut istore name desc).
Proof.
  intros w r w' Hrun. unfold imagePut in Hrun. simplify_eq.
  repeat split; simpl; try done. apply dom_insert_subseteq.
Qed.

Lemma keeps_imageGet istore name : keeps (imageGet istore name).
Proof.
  intros w r w' Hrun. unfold imageGet in Hrun.
  destruct (imgs w !! name); simplify_eq; apply retains_refl.
Qed.

Lemma keepsM_ret {A} (a : A) : keepsM (ret a).
Proof. intros st r st' Heq. unfold ret in Heq. simplify_eq. apply retains_refl. Qed.

Lemma keepsM_throw {A} e : keepsM (throw (A := A) e).
Proof. intros st r st' Heq. unfold throw in Heq. simplify_eq. apply retains_refl. Qed.

Lemma keepsM_lift {A} (x : result A) : keepsM (lift x).
Proof. intros st r st' Heq. unfold lift in Heq. simplify_eq. apply retains_refl. Qed.

Lemma keepsM_liftE {A} (x : error + A) : keepsM (liftE x).
Proof.
  intros st r st' Heq. unfold liftE in Heq.
  destruct x; simplify_eq; apply retains_refl.
Qed.

Lemma keepsM_call {A} c (op : remote World A) : keeps op -> keepsM (call c op).
Proof.
  intros Hop st r st' Hrun. unfold call in Hrun.
  destruct (op (world st)) as [[e|a] w] eqn:Hopw; simplify_eq; simpl;
    by eapply Hop.
Qed.

Lemma keepsM_wrapping {A} (m : M World Fetcher A) msg :
  keepsM m -> keepsM (wrapping m msg).
Proof.
  intros Hm st r st' Hrun. unfold wrapping in Hrun.
  destruct (m st) as [[a|e|msg'] st1] eqn:Hmst; simplify_eq; by eapply Hm.
Qed.

(** Sequencing, where the continuation is only known to lose nothing on the
    values the first part can return. *)
Lemma keepsM_bind_with {A B} (P : A -> Prop)
    (m : M World Fetcher A) (k : A -> M World Fetcher B) :
  keepsM m ->
  (forall st a st', m st = (Ok a, st') -> P a) ->
  (forall a, P a -> keepsM (k a)) ->
  keepsM (bind m k).
Proof.
  intros Hm HP Hk st r st' Hrun. unfold bind in Hrun.
  destruct (m st) as [[a|e|msg] st1] eqn:Hmst; simplify_eq;
    try by eapply Hm.
  eapply retains_trans; [by eapply Hm|].
  eapply Hk; [by eapply HP|exact Hrun].
Qed.

Lemma keepsM_bind {A B} (m : M World Fetcher A) (k : A -> M World Fetcher B) :
  keepsM m -> (forall a, keepsM (k a)) -> keepsM (bind m k).
Proof.
  intros Hm Hk. apply (keepsM_bind_with (fun _ => True)); auto.
Qed.

Lemma keepsM_getLayers s image : keepsM (getLayers (C := collab R) s image).
Proof.
  unfold getLayers.
  apply keepsM_bind.
  { apply keepsM_wrapping, keepsM_call. apply keeps_blobGet. }
  intros p. apply keepsM_bind.
  { apply keepsM_wrapping, keepsM_liftE. }
  intros manifest. apply keepsM_bind.
  { apply keepsM_wrapping, keepsM_call. apply keeps_RootFS. }
  intros diffIDs.
  destruct (negb _); [apply keepsM_throw|apply keepsM_lift].
Qed.

Lemma keepsM_Unpack s image :
  keepsM (snapshotUnpacker_Unpack (C := collab R) s image).
Proof.
  unfold snapshotUnpacker_Unpack.
  apply keepsM_bind; [apply keepsM_getLayers|]. intros layers.
  apply keepsM_bind; [|intros _; apply keepsM_ret].
  apply keepsM_call. apply keeps_applyLayersFrom.
Qed.

(** A pull context whose resolver is the modelled one and whose unpacker,
    if any, is the client's [snapshotUnpacker]. *)
Lemma applyPullOpts_WithPullUnpack opts c pullCtx st r st' :
  Forall (fun o => o = WithPullUnpack (C := collab R)) opts ->
  applyPullOpts opts c pullCtx st = (r, st') ->
  st' = st
  /\ exists pullCtx',
       r = Ok pullCtx'
       /\ pc_Resolver pullCtx' = pc_Resolver pullCtx
       /\ (pc_Unpacker pullCtx' = pc_Unpacker pullCtx
           \/ pc_Unpacker pullCtx' =
                Some (asUnpacker (C := collab R) (clientUnpacker c))).
Proof.
  intros Hopts. revert pullCtx.
  induction Hopts as [|o opts -> _ IH]; intros pullCtx Hrun; simpl in Hrun.
  - unfold ret in Hrun. simplify_eq. split; [done|]. exists pullCtx. auto.
  - unfold bind, WithPullUnpack, ret in Hrun. simpl in Hrun.
    destruct (IH _ Hrun) as (-> & pullCtx' & -> & Hres & Hunp).
    split; [done|]. exists pullCtx'. split; [done|]. split; [done|].
    destruct Hunp as [->| ->]; auto.
Qed.

Lemma keepsM_Pull c ref opts :
  Forall (fun o => o = WithPullUnpack (C := collab R)) opts ->
  keepsM (Pull (C := collab R) c ref opts).
Proof.
  intros Hopts. unfold Pull.
  apply (keepsM_bind_with (fun pullCtx =>
    pc_Resolver pullCtx = resolver R
    /\ (pc_Unpacker pullCtx = None
        \/ pc_Unpacker pullCtx =
             Some (asUnpacker (C := collab R) (clientUnpacker c))))).
  - intros st r st' Hrun.
    destruct (applyPullOpts_WithPullUnpack _ _ _ _ _ _ Hopts Hrun) as [-> _].
    apply retains_refl.
  - intros st pullCtx st' Hrun.
    destruct (applyPullOpts_WithPullUnpack _ _ _ _ _ _ Hopts Hrun)
      as (_ & pullCtx' & Heq & Hres & Hunp).
    simplify_eq. split; [exact Hres|]. exact Hunp.
  - intros pullCtx [Hres Hunp]. rewrite Hres.
    apply keepsM_bind.
    { apply keepsM_call. intros w r w' Heq. simpl in Heq. simplify_eq.
      apply retains_refl. }
    intros [name desc]. apply keepsM_bind.
    { apply keepsM_call. intros w r w' Heq. simpl in Heq. simplify_eq.
      apply retains_refl. }
    intros fetcher. apply keepsM_bind.
    { apply keepsM_call. apply keeps_Dispatch. }
    intros _. apply keepsM_bind.
    { apply keepsM_call. apply keeps_imagePut. }
    intros _. apply keepsM_bind.
    { apply keepsM_call. apply keeps_imageGet. }
    intros img. apply keepsM_bind; [|intros _; apply keepsM_ret].
    destruct Hunp as [->| ->]; [apply keepsM_ret|apply keepsM_Unpack].
Qed.

(** ** Progress is kept *)

































(** An aborted layer leaves no mount under its chain ID, committed or not. *)
Lemma applyLayer_abort_leaves_no_mount parent chainID layer w e w' :
  applyLayer R parent chainID layer w = (inl e, w') ->
  (chainID ∉ committed w') /\ (chainID ∉ active w').
Proof.
  unfold applyLayer.
  destruct (decide (chainID ∈ committed w)) as [|Hfresh]; [discriminate|].
  destruct ((mounts <~ Prepare chainID parent ;;
             _ <~ Apply R mounts (rootfs.Blob layer) ;;
             Commit chainID) w) as [[e1|u] w1] eqn:Hsteps; [|discriminate].
  intros Heq. simplify_eq. simpl.
  split.
  2:{ intros Hin. apply elem_of_difference in Hin as [_ Hnot].
      apply Hnot. by apply elem_of_singleton. }
  assert (Hsame : committed w1 = committed w); [|by rewrite Hsame].
  unfold remote_bind in Hsteps.
  destruct (Prepare chainID parent w) as [[e2|mounts] w2] eqn:Hprep.
  { unfold Prepare in Hprep.
    destruct (decide _); [|destruct (decide _)]; by simplify_eq. }
  assert (Hprep_same : committed w2 = committed w).
  { unfold Prepare in Hprep.
    destruct (decide _); [|destruct (decide _)]; by simplify_eq. }
  unfold Apply in Hsteps.
  destruct (applyDiff R mounts (rootfs.Blob layer)); [by simplify_eq|].
  unfold Commit in Hsteps.
  destruct (decide _); [|destruct (decide _)]; by simplify_eq.
Qed.


End DaemonProperties.

(** * The code on the small registry *)

Import Daemon Example.

(** C1 on [broken]: three manifest layers, two diff IDs. *)
Lemma getLayers_succeeds_iff_lengths_agree_witness :
  (content_ReadBlob (Collab := exampleCollab) (su_store exampleUnpacker)
     (v1.Digest (images.Target broken)) loadedWorld
     = (inr [Byte.x04], loadedWorld)
   /\ json_Unmarshal (Collab := exampleCollab) [Byte.x04] = inr brokenManifest
   /\ Image_RootFS (Collab := exampleCollab) broken (su_store exampleUnpacker)
        loadedWorld = (inr ["sha:d1"; "sha:d2"], loadedWorld))
  /\ ((isOk (getLayers (C := exampleCollab) exampleUnpacker broken
              (start loadedWorld)).1 = true
       <-> 2 = 3)
      /\ (2 <> 3 ->
          exists st',
            getLayers (C := exampleCollab) exampleUnpacker broken
              (start loadedWorld) = (Err LayerMismatch, st')
            /\ snapshotUnpacker_Unpack (C := exampleCollab) exampleUnpacker
                 broken (start loadedWorld) = (Err LayerMismatch, st')
            /\ world st' = loadedWorld
            /\ Forall (fun c => reachesSnapshotterOrDiff c = false)
                 (callsSince (start loadedWorld) st'))).
Proof.
  split.
  - repeat split; reflexivity.
  - apply (getLayers_succeeds_iff_lengths_agree (C := exampleCollab)
             exampleUnpacker broken (start loadedWorld)
             [Byte.x04] loadedWorld brokenManifest ["sha:d1"; "sha:d2"]
             loadedWorld); reflexivity.
Defined.

(** C2 on [busybox]: one layer, blob [sha:abc], diff ID [sha:def]. *)
Lemma getLayers_pairs_by_index_witness :
  exists layers st',
    getLayers (C := exampleCollab) exampleUnpacker busybox (start loadedWorld)
      = (Ok layers, st')
    /\ exists p w1 manifest diffIDs w2,
         content_ReadBlob (Collab := exampleCollab) (su_store exampleUnpacker)
           (v1.Digest (images.Target busybox)) (world (start loadedWorld))
           = (inr p, w1)
         /\ json_Unmarshal (Collab := exampleCollab) p = inr manifest
         /\ Image_RootFS (Collab := exampleCollab) busybox
              (su_store exampleUnpacker) w1 = (inr diffIDs, w2)
         /\ length layers = length (v1.Layers manifest)
         /\ (forall k, k < length layers ->
               exists layer,
                 layers !! k = Some layer
                 /\ v1.Layers manifest !! k = Some (rootfs.Blob layer)
                 /\ diffIDs !! k = Some (v1.Digest (rootfs.Diff layer))).
Proof.
  eexists _, _. split.
  - reflexivity.
  - eapply (getLayers_pairs_by_index (C := exampleCollab)
              exampleUnpacker busybox (start loadedWorld)).
    reflexivity.
Defined.

(** C9 on [busybox]: its one manifest layer is gzip-compressed, and the
    one layer returned has that blob and an uncompressed diff type. *)
Lemma getLayers_diff_media_type_witness :
  exists layers st',
    getLayers (C := exampleCollab) exampleUnpacker busybox (start loadedWorld)
      = (Ok layers, st')
    /\ layers =
         [{| rootfs.Diff :=
               {| v1.MediaType := "application/vnd.oci.image.layer.v1.tar";
                  v1.Digest := "sha:def";
                  v1.Size := 0 |};
             rootfs.Blob := layerBlob "sha:abc" |}]
    /\ v1.MediaType (layerBlob "sha:abc")
         = "application/vnd.oci.image.layer.v1.tar+gzip"
    /\ exists p w1 manifest diffIDs w2,
         content_ReadBlob (Collab := exampleCollab) (su_store exampleUnpacker)
           (v1.Digest (images.Target busybox)) (world (start loadedWorld))
           = (inr p, w1)
         /\ json_Unmarshal (Collab := exampleCollab) p = inr manifest
         /\ Image_RootFS (Collab := exampleCollab) busybox
              (su_store exampleUnpacker) w1 = (inr diffIDs, w2)
         /\ length layers = length (v1.Layers manifest)
         /\ Forall (fun layer =>
                     v1.MediaType (rootfs.Diff layer)
                       = MediaTypeImageLayer (Collab := exampleCollab)) layers
         /\ (forall k blob,
               v1.Layers manifest !! k = Some blob ->
               exists layer,
                 layers !! k = Some layer
                 /\ rootfs.Blob layer = blob
                 /\ v1.MediaType (rootfs.Diff layer)
                      = MediaTypeImageLayer (Collab := exampleCollab)).
Proof.
  eexists _, _. split; [reflexivity|]. split; [reflexivity|].
  split; [reflexivity|].
  eapply (getLayers_diff_media_type (C := exampleCollab)
            exampleUnpacker busybox (start loadedWorld)).
  reflexivity.
Defined.

(** C5, as the spec has it, fails: [broken] (three layers, two diff IDs)
    and [tiny] (one layer, no diff ID) fail with the same error, so the two
    lengths cannot be read off it. *)
Lemma LayerMismatch_does_not_identify_lengths :
  ~ exists decode : error -> nat * nat,
      forall image p w1 manifest diffIDs w2 e st',
        content_ReadBlob (Collab := exampleCollab) (su_store exampleUnpacker)
          (v1.Digest (images.Target image)) loadedWorld = (inr p, w1) ->
        json_Unmarshal (Collab := exampleCollab) p = inr manifest ->
        Image_RootFS (Collab := exampleCollab) image
          (su_store exampleUnpacker) w1 = (inr diffIDs, w2) ->
        length diffIDs <> length (v1.Layers manifest) ->
        getLayers (C := exampleCollab) exampleUnpacker image
          (start loadedWorld) = (Err e, st') ->
        decode e = (length (v1.Layers manifest), length diffIDs).
Proof.
  intros [decode Hdecode].
  assert (H32 : decode LayerMismatch = (3, 2)).
  { apply (Hdecode broken [Byte.x04] loadedWorld brokenManifest
             ["sha:d1"; "sha:d2"] loadedWorld LayerMismatch
             (getLayers (C := exampleCollab) exampleUnpacker broken
                (start loadedWorld)).2);
      try reflexivity.
    simpl. lia. }
  assert (H10 : decode LayerMismatch = (1, 0)).
  { apply (Hdecode tiny [Byte.x06] loadedWorld tinyManifest
             [] loadedWorld LayerMismatch
             (getLayers (C := exampleCollab) exampleUnpacker tiny
                (start loadedWorld)).2);
      try reflexivity.
    simpl. lia. }
  rewrite H32 in H10. discriminate.
Qed.

(** C5, as the code has it, on [broken]. *)
Lemma getLayers_mismatch_fixed_error_witness :
  (content_ReadBlob (Collab := exampleCollab) (su_store exampleUnpacker)
     (v1.Digest (images.Target broken)) loadedWorld
     = (inr [Byte.x04], loadedWorld)
   /\ json_Unmarshal (Collab := exampleCollab) [Byte.x04] = inr brokenManifest
   /\ Image_RootFS (Collab := exampleCollab) broken (su_store exampleUnpacker)
        loadedWorld = (inr ["sha:d1"; "sha:d2"], loadedWorld)
   /\ 2 <> 3)
  /\ (getLayers (C := exampleCollab) exampleUnpacker broken
        (start loadedWorld)).1
     = Err (errors_Errorf "mismatched image rootfs and manifest layers").
Proof.
  split.
  - repeat split; try reflexivity. lia.
  - apply (getLayers_mismatch_fixed_error (C := exampleCollab)
             exampleUnpacker broken (start loadedWorld)
             [Byte.x04] loadedWorld brokenManifest ["sha:d1"; "sha:d2"]
             loadedWorld); try reflexivity.
    simpl. lia.
Defined.

(** C6 on three stores: an empty one, one with a garbled manifest, one
    without the config. *)
Lemma getLayers_propagates_load_errors_witness :
  (getLayers (C := exampleCollab) exampleUnpacker busybox (start emptyWorld)).1
    = Err (errors_Wrap (ErrNotFound "sha:m1") "failed to read manifest blob")
  /\ (snapshotUnpacker_Unpack (C := exampleCollab) exampleUnpacker busybox
        (start garbledWorld)).1
     = Err (errors_Wrap (ErrIO "unexpected end of JSON input")
              "failed to unmarshal manifest")
  /\ (snapshotUnpacker_Unpack (C := exampleCollab) exampleUnpacker busybox
        (start headlessWorld)).1
     = Err (errors_Wrap (ErrNotFound "sha:c1") "failed to resolve rootfs").
Proof.
  split; [|split].
  - destruct (getLayers_propagates_load_errors (C := exampleCollab)
                exampleUnpacker busybox (start emptyWorld))
      as (_ & Hread & _).
    destruct (Hread (ErrNotFound "sha:m1") emptyWorld eq_refl) as (-> & _).
    reflexivity.
  - destruct (getLayers_propagates_load_errors (C := exampleCollab)
                exampleUnpacker busybox (start garbledWorld))
      as (_ & _ & Hparse & _).
    destruct (Hparse [Byte.x00] garbledWorld
                (ErrIO "unexpected end of JSON input") eq_refl eq_refl)
      as (_ & -> & _).
    reflexivity.
  - destruct (getLayers_propagates_load_errors (C := exampleCollab)
                exampleUnpacker busybox (start headlessWorld))
      as (_ & _ & _ & Hroot).
    destruct (Hroot [Byte.x01] headlessWorld busyboxManifest
                (ErrNotFound "sha:c1") headlessWorld eq_refl eq_refl eq_refl)
      as (_ & -> & _).
    reflexivity.
Defined.

(** C3 on the reference [ghost], whose manifest the registry does not
    have: the dispatch fails and the image store is never called. *)
Lemma Pull_runs_stages_in_order_witness :
  applyPullOpts [WithPullUnpack (C := exampleCollab)]
    exampleClient (defaultPullContext (C := exampleCollab)) (start emptyWorld)
    = (Ok {| pc_Resolver := resolver exampleRemote;
             pc_Unpacker :=
               Some (asUnpacker (C := exampleCollab)
                       (clientUnpacker exampleClient)) |},
       start emptyWorld)
  /\ (Pull (C := exampleCollab) exampleClient "ghost"
        [WithPullUnpack (C := exampleCollab)] (start emptyWorld)).1
     = Err (ErrNotFound "sha:gone")
  /\ callsSince (start emptyWorld)
       (Pull (C := exampleCollab) exampleClient "ghost"
          [WithPullUnpack (C := exampleCollab)] (start emptyWorld)).2
     = [CallResolve "ghost";
        CallFetcher "docker.io/library/ghost:latest";
        CallDispatch exampleHandlers (manifestBlob "sha:gone")].
Proof.
  split; [reflexivity|].
  destruct (Pull_runs_stages_in_order (C := exampleCollab) exampleClient
              "ghost" [WithPullUnpack (C := exampleCollab)]
              (start emptyWorld) _ _ eq_refl) as [_ Hresolved].
  destruct (Hresolved "docker.io/library/ghost:latest"
              (manifestBlob "sha:gone") emptyWorld eq_refl)
    as [_ Hfetcher].
  destruct (Hfetcher exampleFetcher emptyWorld eq_refl) as [Hdispatch _].
  destruct (Hdispatch (ErrNotFound "sha:gone")
              (logFetch emptyWorld (manifestBlob "sha:gone")) eq_refl)
    as [Hrun Hcalls].
  split; [by rewrite Hrun|exact Hcalls].
Defined.

(** C7 on [busybox], pulled with [WithPullUnpack] into empty stores: the
    layer is unpacked and committed under its chain ID. *)
Lemma Pull_unpacks_only_on_request_witness :
  (Pull (C := exampleCollab) exampleClient "busybox"
     [WithPullUnpack (C := exampleCollab)] (start emptyWorld)).1
    = Ok {| client := exampleClient; i := busybox |}
  /\ committed
       (world (Pull (C := exampleCollab) exampleClient "busybox"
                 [WithPullUnpack (C := exampleCollab)] (start emptyWorld)).2)
     = {[ "sha:def" ]}
  /\ committed
       (world (Pull (C := exampleCollab) exampleClient "busybox" []
                 (start emptyWorld)).2)
     = ∅.
Proof.
  assert (Hdispatch :
    images_Dispatch (Collab := exampleCollab) exampleHandlers
      (manifestBlob "sha:m1") emptyWorld = (inr tt, pulledWorld))
    by (vm_compute; reflexivity).
  assert (Hput :
    imagesStore_Put (Collab := exampleCollab) (images exampleClient)
      "docker.io/library/busybox:latest" (manifestBlob "sha:m1") pulledWorld
      = (inr tt, registeredWorld))
    by (vm_compute; reflexivity).
  assert (Hget :
    imagesStore_Get (Collab := exampleCollab) (images exampleClient)
      "docker.io/library/busybox:latest" registeredWorld
      = (inr busybox, registeredWorld))
    by (vm_compute; reflexivity).
  destruct (Pull_unpacks_only_on_request (C := exampleCollab) exampleClient
              "busybox" (start emptyWorld)) as (_ & _ & _ & Hunpack).
  rewrite (Hunpack "docker.io/library/busybox:latest" (manifestBlob "sha:m1")
             emptyWorld exampleFetcher emptyWorld tt pulledWorld tt
             registeredWorld busybox registeredWorld
             eq_refl eq_refl Hdispatch Hput Hget).
  split; [|split]; vm_compute; reflexivity.
Defined.

(** C4 on [busybox]: the first dispatch fetches the manifest, the config
    and the layer; the second one leaves the world, and with it the log of
    fetches, untouched. *)
Lemma Dispatch_again_fetches_nothing_witness :
  images_Dispatch (Collab := exampleCollab) exampleHandlers
    (manifestBlob "sha:m1") emptyWorld = (inr tt, pulledWorld)
  /\ map v1.Digest (fetched pulledWorld) = ["sha:m1"; "sha:c1"; "sha:abc"]
  /\ images_Dispatch (Collab := exampleCollab) exampleHandlers
       (manifestBlob "sha:m1") pulledWorld = (inr tt, pulledWorld).
Proof.
  assert (Hfirst :
    images_Dispatch (Collab := exampleCollab) exampleHandlers
      (manifestBlob "sha:m1") emptyWorld = (inr tt, pulledWorld))
    by (vm_compute; reflexivity).
  split; [exact Hfirst|]. split; [vm_compute; reflexivity|].
  exact (proj1 (Dispatch_again_fetches_nothing exampleRemote
                  (content exampleClient) exampleFetcher
                  (manifestBlob "sha:m1") emptyWorld pulledWorld Hfirst)).
Defined.


(** C10 on a spec with a process and on one without. *)
Example WithArgs_on_process :
  WithArgs (ProcessRest := unit) (SpecRest := unit) ["sh"; "-c"; "true"]
    {| spec_Process := Some {| Args := ["sh"]; process_rest := tt |};
       Annotations := None; spec_rest := tt |}
  = Ok {| spec_Process :=
            Some {| Args := ["sh"; "-c"; "true"]; process_rest := tt |};
          Annotations := None; spec_rest := tt |}.
Proof. reflexivity. Qed.

Example WithArgs_on_nil_process :
  WithArgs (ProcessRest := unit) (SpecRest := unit) ["sh"]
    {| spec_Process := None; Annotations := None; spec_rest := tt |}
  = Panic "invalid memory address or nil pointer dereference".
Proof. reflexivity. Qed.

(** * Further properties of the spec options (spec.go) *)

Section SpecOptionComposition.
Context {ProcessRest SpecRest : Type}.

Implicit Types (s : Spec ProcessRest SpecRest).
Implicit Types (opts : list (SpecOpts ProcessRest SpecRest)).

(** Options given as one list are the two halves applied in turn. *)
Lemma applySpecOpts_app opts1 opts2 s :
  applySpecOpts (opts1 ++ opts2) s
    = rbind (applySpecOpts opts1 s) (applySpecOpts opts2).
Proof.
  revert s. induction opts1 as [|o opts1 IH]; intros s; simpl; [done|].
  destruct (o s) as [s'|e|msg]; simpl; auto.
Qed.

(** X1: [WithImageRef] never fails, also on a spec whose annotation map is
    nil: afterwards the annotation [image] is the given reference, every
    other annotation is as it was, and no other field has changed. *)
Theorem WithImageRef_sets_image_annotation (ref : string) s :
  exists annotations,
    WithImageRef ref s =
      Ok {| spec_Process := spec_Process s;
            Annotations := Some annotations;
            spec_rest := spec_rest s |}
    /\ annotations !! "image" = Some ref
    /\ (forall key, key <> "image" ->
          annotations !! key =
            match Annotations s with
            | Some m => m !! key
            | None => None
            end).
Proof.
  unfold WithImageRef. eexists. split; [reflexivity|]. split.
  - apply lookup_insert_eq.
  - intros key Hkey. rewrite lookup_insert_ne by done.
    destruct (Annotations s); [done|apply lookup_empty].
Qed.

(** X2: of two [WithImageRef] options applied one after the other the
    second decides: the result is the one the second gives alone. *)
Theorem WithImageRef_last_wins (ref1 ref2 : string) s :
  applySpecOpts [WithImageRef ref1; WithImageRef ref2] s
    = WithImageRef ref2 s.
Proof.
  simpl. unfold WithImageRef, rbind. simpl.
  by rewrite insert_insert_eq.
Qed.

(** X3: [WithArgs] and [WithImageRef] can be given in either order: both
    orders end in the same spec, and both panic on a nil [Process]. *)
Theorem WithArgs_WithImageRef_commute (args : list string) (ref : string) s :
  applySpecOpts [WithArgs args; WithImageRef ref] s
    = applySpecOpts [WithImageRef ref; WithArgs args] s.
Proof.
  simpl. unfold WithArgs, WithImageRef, rbind. simpl.
  by destruct (spec_Process s).
Qed.

Variable createDefaultSpec : string -> error + Spec ProcessRest SpecRest.

(** X4: [GenerateSpec] applies its options from left to right on the
    default spec and stops at the first that fails.  An error of
    [createDefaultSpec] is returned whatever the options are; without
    options the default spec is returned; and once the options [opts1] have
    produced a spec, the next option is applied to that spec: its error or
    panic is the result whatever options follow, and its spec is the result
    when none follows. *)
Theorem GenerateSpec_applies_options_in_order (id : string) opts1
    (o : SpecOpts ProcessRest SpecRest) opts2 :
  (forall e,
     createDefaultSpec id = inl e ->
     GenerateSpec createDefaultSpec id (opts1 ++ o :: opts2) = Err e)
  /\ (forall s,
       createDefaultSpec id = inr s ->
       GenerateSpec createDefaultSpec id [] = Ok s)
  /\ (forall s1,
       GenerateSpec createDefaultSpec id opts1 = Ok s1 ->
       (forall e,
          o s1 = Err e ->
          GenerateSpec createDefaultSpec id (opts1 ++ o :: opts2) = Err e)
       /\ (forall msg,
            o s1 = Panic msg ->
            GenerateSpec createDefaultSpec id (opts1 ++ o :: opts2)
              = Panic msg)
       /\ (forall s2,
            o s1 = Ok s2 ->
            GenerateSpec createDefaultSpec id (opts1 ++ [o]) = Ok s2)).
Proof.
  unfold GenerateSpec. split; [|split].
  - intros e ->. reflexivity.
  - intros s ->. reflexivity.
  - intros s1 Hprefix.
    destruct (createDefaultSpec id) as [e|s]; [discriminate|].
    rewrite !applySpecOpts_app, Hprefix. simpl.
    split; [|split].
    + intros e ->. reflexivity.
    + intros msg ->. reflexivity.
    + intros s2 ->. reflexivity.
Qed.

(** X5: when [GenerateSpec] succeeds with [WithArgs args] as its last
    option, the generated spec has a process whose arguments are [args],
    whatever the default spec and the earlier options set. *)
Theorem GenerateSpec_final_WithArgs (id : string) opts (args : list string) s :
  GenerateSpec createDefaultSpec id (opts ++ [WithArgs args]) = Ok s ->
  exists p, spec_Process s = Some p /\ Args p = args.
Proof.
  unfold GenerateSpec.
  destruct (createDefaultSpec id) as [e|s0]; [discriminate|].
  rewrite applySpecOpts_app.
  destruct (applySpecOpts opts s0) as [s1|e|msg]; simpl; try discriminate.
  unfold WithArgs. destruct (spec_Process s1) as [p|]; simpl; [|discriminate].
  intros Heq. simplify_eq. simpl. eauto.
Qed.

(** X6: when [GenerateSpec] succeeds with [WithImageRef ref] as its last
    option, the generated spec is annotated with [image = ref]. *)
Theorem GenerateSpec_final_WithImageRef (id : string) opts (ref : string) s :
  GenerateSpec createDefaultSpec id (opts ++ [WithImageRef ref]) = Ok s ->
  exists annotations,
    Annotations s = Some annotations /\ annotations !! "image" = Some ref.
Proof.
  unfold GenerateSpec.
  destruct (createDefaultSpec id) as [e|s0]; [discriminate|].
  rewrite applySpecOpts_app.
  destruct (applySpecOpts opts s0) as [s1|e|msg]; simpl; try discriminate.
  unfold WithImageRef. intros Heq. simplify_eq. simpl.
  eexists. split; [reflexivity|]. apply lookup_insert_eq.
Qed.
End SpecOptionComposition.

(** * Further properties of pulling and unpacking (client.go) *)

Section PullComposition.
Context {W Fetcher : Type} {C : Collab W Fetcher}.

Implicit Types (st : State W Fetcher) (s : snapshotUnpacker).
Implicit Types (image : images.Image) (manifest : v1.Manifest).
Implicit Types (diffIDs : list digest.Digest).

(** With equally many diff IDs and manifest layers, the loop of
    [getLayers] returns the two slices paired up index by index. *)
Lemma getLayers_loop_zip diffIDs manifest :
  length diffIDs = length (v1.Layers manifest) ->
  getLayers_loop diffIDs manifest (seq 0 (length diffIDs))
    (replicate (length diffIDs) rootfs.zeroLayer)
  = Ok (zip_with pairedLayer diffIDs (v1.Layers manifest)).
Proof.
  intros Hlen.
  destruct (getLayers_loop_total diffIDs manifest Hlen)
    as (layers & -> & Hlen' & Hat).
  f_equal. apply list_eq. intros k.
  rewrite lookup_zip_with.
  destruct (diffIDs !! k) as [d|] eqn:Hd; simpl.
  - destruct (lookup_lt_is_Some_2 (v1.Layers manifest) k) as [b Hb].
    { apply lookup_lt_Some in Hd. lia. }
    rewrite Hb. simpl. by apply Hat.
  - apply lookup_ge_None. apply lookup_ge_None in Hd. lia.
Qed.

(** X7: [getLayers] never panics: it returns layers or an error.  The
    length check keeps every index of its loop in range, whatever the
    store holds. *)
Theorem getLayers_never_panics s image st :
  exists st',
    (exists layers, getLayers s image st = (Ok layers, st'))
    \/ (exists e, getLayers s image st = (Err e, st')).
Proof.
  destruct (content_ReadBlob (su_store s) (v1.Digest (images.Target image))
              (world st)) as [[e|p] w1] eqn:Hread.
  { rewrite (getLayers_read_fails _ _ _ _ _ Hread). eauto. }
  destruct (json_Unmarshal p) as [e|manifest] eqn:Hparse.
  { rewrite (getLayers_parse_fails _ _ _ _ _ _ Hread Hparse). eauto. }
  destruct (Image_RootFS image (su_store s) w1) as [[e|diffIDs] w2] eqn:Hroot.
  { rewrite (getLayers_rootfs_fails _ _ _ _ _ _ _ _ Hread Hparse Hroot).
    eauto. }
  rewrite (getLayers_loaded _ _ _ _ _ _ _ _ Hread Hparse Hroot).
  destruct (Nat.eqb_spec (length diffIDs) (length (v1.Layers manifest)))
    as [Heq|Hne]; [|eauto].
  rewrite (getLayers_loop_zip _ _ Heq). eauto.
Qed.

(** X8: when the manifest and the diff IDs have been read and their counts
    agree, [Unpack] hands [rootfs.ApplyLayers] the diff IDs paired with the
    manifest's layers, in order, together with the unpacker's snapshotter
    and diff service; it returns nil when that call succeeds, and the
    call's own error, not wrapped, when it fails. *)
Theorem Unpack_applies_paired_layers s image st p w1 manifest diffIDs w2 :
  content_ReadBlob (su_store s) (v1.Digest (images.Target image)) (world st)
    = (inr p, w1) ->
  json_Unmarshal p = inr manifest ->
  Image_RootFS image (su_store s) w1 = (inr diffIDs, w2) ->
  length diffIDs = length (v1.Layers manifest) ->
  let layers := zip_with pairedLayer diffIDs (v1.Layers manifest) in
  let st2 :=
    after (after st
             (CallReadBlob (su_store s) (v1.Digest (images.Target image))) w1)
          (CallRootFS image (su_store s)) w2 in
  let applyCall := CallApplyLayers layers (su_snapshotter s) (su_diff s) in
  snapshotUnpacker_Unpack s image st =
    match rootfs_ApplyLayers layers (su_snapshotter s) (su_diff s) w2 with
    | (inl e, w3) => (Err e, after st2 applyCall w3)
    | (inr _, w3) => (Ok tt, after st2 applyCall w3)
    end.
Proof.
  intros Hread Hparse Hroot Hlen layers st2 applyCall.
  unfold snapshotUnpacker_Unpack, bind.
  rewrite (getLayers_loaded _ _ _ _ _ _ _ _ Hread Hparse Hroot).
  apply Nat.eqb_eq in Hlen as Hlenb. rewrite Hlenb.
  rewrite (getLayers_loop_zip _ _ Hlen).
  unfold call, ret. simpl.
  by destruct (rootfs_ApplyLayers _ _ _ w2) as [[e|chainID] w3].
Qed.

Lemma applyPullOpts_app (opts1 opts2 : list (PullOpts W Fetcher)) c pullCtx st :
  applyPullOpts (opts1 ++ opts2) c pullCtx st
    = bind (applyPullOpts opts1 c pullCtx) (applyPullOpts opts2 c) st.
Proof.
  revert pullCtx st.
  induction opts1 as [|o opts1 IH]; intros pullCtx st; simpl.
  - reflexivity.
  - unfold bind.
    destruct (o c pullCtx st) as [[pullCtx'|e|msg] st1]; [|done..].
    rewrite IH. reflexivity.
Qed.

(** X9: the options of [Pull] are applied from left to right, and the
    first one that fails ends [Pull] with its error in the state it left:
    the later options are not applied and the reference is not resolved. *)
Theorem Pull_stops_at_failing_option
    c ref (opts1 opts2 : list (PullOpts W Fetcher)) o st pullCtx st1 e st2 :
  applyPullOpts opts1 c defaultPullContext st = (Ok pullCtx, st1) ->
  o c pullCtx st1 = (Err e, st2) ->
  Pull c ref (opts1 ++ o :: opts2) st = (Err e, st2).
Proof.
  intros Hopts1 Ho. unfold Pull. unfold bind at 1.
  rewrite applyPullOpts_app. unfold bind at 1. rewrite Hopts1.
  simpl. unfold bind at 1. by rewrite Ho.
Qed.

(** X18: whatever options were applied, when they leave the pull context
    without an unpacker, [Pull] makes at most the five calls Resolve,
    Fetcher, Dispatch, Put, Get after them, and none of these reaches the
    snapshotter or the diff service. *)
Theorem Pull_without_unpacker_skips_snapshotter
    c ref (opts : list (PullOpts W Fetcher)) st pullCtx st0 :
  applyPullOpts opts c defaultPullContext st = (Ok pullCtx, st0) ->
  pc_Unpacker pullCtx = None ->
  Forall (fun call => reachesSnapshotterOrDiff call = false)
    (callsSince st0 (Pull c ref opts st).2)
  /\ length (callsSince st0 (Pull c ref opts st).2) <= 5.
Proof.
  intros Hopts Hnone.
  unfold Pull, bind, call, ret. rewrite Hopts. simpl. rewrite Hnone.
  destruct (Resolve (pc_Resolver pullCtx) ref (world st0))
    as [[e|[name desc]] w1]; simpl.
  { rewrite callsSince_after. split; [by repeat constructor|simpl; lia]. }
  destruct (ResolverFetcher (pc_Resolver pullCtx) name w1)
    as [[e|fetcher] w2]; simpl.
  { rewrite callsSince_after2. split; [by repeat constructor|simpl; lia]. }
  destruct (images_Dispatch _ desc w2) as [[e|u] w3]; simpl.
  { erewrite callsSince_app
      by (simpl; rewrite <- !app_assoc; reflexivity).
    split; [by repeat constructor|simpl; lia]. }
  destruct (imagesStore_Put (images c) name desc w3) as [[e|u'] w4]; simpl.
  { erewrite callsSince_app
      by (simpl; rewrite <- !app_assoc; reflexivity).
    split; [by repeat constructor|simpl; lia]. }
  destruct (imagesStore_Get (images c) name w4) as [[e|img] w5]; simpl.
  { erewrite callsSince_app
      by (simpl; rewrite <- !app_assoc; reflexivity).
    split; [by repeat constructor|simpl; lia]. }
  erewrite callsSince_app
    by (simpl; rewrite <- !app_assoc; reflexivity).
  split; [by repeat constructor|simpl; lia].
Qed.

(** X19: an error of [Unpack] has one of five origins, and each shows in
    the error: the read of the manifest blob failed and the error is that
    failure wrapped with "failed to read manifest blob"; the blob was read
    but did not parse, wrapped with "failed to unmarshal manifest"; the
    diff IDs could not be resolved, wrapped with "failed to resolve
    rootfs"; both were read but their counts differ, and the error is the
    layer-count error; or the counts agree and [rootfs.ApplyLayers] failed
    on the paired layers, and the error is its error as it is. *)
Theorem Unpack_error_origins s image st e st' :
  snapshotUnpacker_Unpack s image st = (Err e, st') ->
  let readBlob :=
    content_ReadBlob (su_store s) (v1.Digest (images.Target image))
      (world st) in
  (exists cause w1,
     readBlob = (inl cause, w1)
     /\ e = errors_Wrap cause "failed to read manifest blob")
  \/ (exists p w1 cause,
        readBlob = (inr p, w1)
        /\ json_Unmarshal p = inl cause
        /\ e = errors_Wrap cause "failed to unmarshal manifest")
  \/ (exists p w1 manifest cause w2,
        readBlob = (inr p, w1)
        /\ json_Unmarshal p = inr manifest
        /\ Image_RootFS image (su_store s) w1 = (inl cause, w2)
        /\ e = errors_Wrap cause "failed to resolve rootfs")
  \/ (exists p w1 manifest diffIDs w2,
        readBlob = (inr p, w1)
        /\ json_Unmarshal p = inr manifest
        /\ Image_RootFS image (su_store s) w1 = (inr diffIDs, w2)
        /\ length diffIDs <> length (v1.Layers manifest)
        /\ e = errors_Errorf "mismatched image rootfs and manifest layers")
  \/ (exists p w1 manifest diffIDs w2 w3,
        readBlob = (inr p, w1)
        /\ json_Unmarshal p = inr manifest
        /\ Image_RootFS image (su_store s) w1 = (inr diffIDs, w2)
        /\ length diffIDs = length (v1.Layers manifest)
        /\ rootfs_ApplyLayers
             (zip_with pairedLayer diffIDs (v1.Layers manifest))
             (su_snapshotter s) (su_diff s) w2 = (inl e, w3)).
Proof.
  intros Hrun readBlob. subst readBlob.
  unfold snapshotUnpacker_Unpack in Hrun. unfold bind at 1 in Hrun.
  destruct (content_ReadBlob (su_store s) (v1.Digest (images.Target image))
              (world st)) as [[e0|p] w1] eqn:Hread.
  { rewrite (getLayers_read_fails _ _ _ _ _ Hread) in Hrun.
    simplify_eq. left. eauto. }
  destruct (json_Unmarshal p) as [e0|manifest] eqn:Hparse.
  { rewrite (getLayers_parse_fails _ _ _ _ _ _ Hread Hparse) in Hrun.
    simplify_eq. right. left. eauto 6. }
  destruct (Image_RootFS image (su_store s) w1) as [[e0|diffIDs] w2] eqn:Hroot.
  { rewrite (getLayers_rootfs_fails _ _ _ _ _ _ _ _ Hread Hparse Hroot)
      in Hrun.
    simplify_eq. do 2 right. left.
    exists p, w1, manifest, e0, w2. by repeat split. }
  rewrite (getLayers_loaded _ _ _ _ _ _ _ _ Hread Hparse Hroot) in Hrun.
  revert Hrun.
  destruct (Nat.eqb_spec (length diffIDs) (length (v1.Layers manifest)))
    as [Heq|Hne]; intros Hrun.
  2:{ simplify_eq. do 3 right. left.
      exists p, w1, manifest, diffIDs, w2. by repeat split. }
  rewrite (getLayers_loop_zip _ _ Heq) in Hrun.
  unfold bind, call, ret in Hrun. simpl in Hrun.
  destruct (rootfs_ApplyLayers _ (su_snapshotter s) (su_diff s) w2)
    as [[e0|chainID] w3] eqn:Happly; [|discriminate].
  simplify_eq. do 4 right.
  exists p, w1, manifest, diffIDs, w2, w3. by repeat split.
Qed.
End PullComposition.

(** * Properties of the container and connection functions (client.go) *)

Section ContainerProperties.
Context {W Fetcher : Type} {C : Collab W Fetcher}.
Context {Mounts Rest SpecT ClientContainer : Type}.
Context {CC : ContainerCollab W Mounts Rest SpecT ClientContainer}.

Implicit Types (st : Run W (Event Rest)) (c client : Client).
Implicit Types (container : containers.Container Rest).

Lemma eventsSince_logged st e w : eventsSince st (logged st e w) = [e].
Proof. unfold eventsSince, logged; simpl. by rewrite drop_app_length. Qed.

Lemma eventsSince_logged2 st e1 w1 e2 w2 :
  eventsSince st (logged (logged st e1 w1) e2 w2) = [e1; e2].
Proof.
  unfold eventsSince, logged; simpl.
  by rewrite <- app_assoc, drop_app_length.
Qed.

Lemma applyOpts_app {A} (opts1 opts2 : list (A -> T W (Event Rest) A)) x st :
  applyOpts (opts1 ++ opts2) x st
    = tbind (applyOpts opts1 x) (applyOpts opts2) st.
Proof.
  revert x st. induction opts1 as [|o opts1 IH]; intros x st; simpl.
  - reflexivity.
  - unfold tbind.
    destruct (o x st) as [[x'|e|msg] st1]; [|done..].
    rewrite IH. reflexivity.
Qed.

Lemma Containers_loop_from c (listed : list (containers.Container Rest)) out :
  fold_left (fun out container => out ++ [containerFromProto c container])
    listed out
  = out ++ map (containerFromProto c) listed.
Proof.
  revert out. induction listed as [|container listed IH]; intros out; simpl.
  - by rewrite app_nil_r.
  - rewrite IH. by rewrite <- app_assoc.
Qed.

(** X10: [Containers] makes one [List] call; it returns the call's error
    as it is, and otherwise one container per listed one, in the listed
    order, each built by [containerFromProto] for this client. *)
Theorem Containers_lists_in_order c st :
  match containers_List (containers c) (run_world st) with
  | (inl e, w) =>
    Containers c st = (Err e, logged st (EvList (containers c)) w)
  | (inr listed, w) =>
    Containers c st =
      (Ok (map (containerFromProto c) listed),
       logged st (EvList (containers c)) w)
  end.
Proof.
  unfold Containers, tbind, tcall, tret.
  destruct (containers_List (containers c) (run_world st)) as [[e|listed] w];
    [done|].
  unfold Containers_loop. by rewrite Containers_loop_from.
Qed.

(** X11: [NewContainer] marshals the spec, applies the options to a
    container with the given id, the client's runtime and the marshalled
    spec under [specs.Version], and only then calls [Create], once, with
    the container the options produced.  A marshalling error or a failing
    option ends it with that error before any [Create]; an error of
    [Create] is returned as it is. *)
Theorem NewContainer_creates_after_options
    c (id : string) (spec : SpecT) (opts : list (NewContainerOpts W Rest)) st :
  (forall e,
     json_Marshal spec = inl e ->
     NewContainer c id spec opts st = (Err e, st))
  /\ (forall data,
       json_Marshal spec = inr data ->
       let request :=
         {| containers.ID := id;
            containers.Labels := None;
            containers.Runtime := Runtime c;
            containers.Spec :=
              Some {| protobuf.TypeUrl := specs_Version;
                      protobuf.Value := data |};
            containers.RootFS := "";
            containers.rest := zeroRest |} in
       (forall e st',
          applyOpts (map (fun o => o c) opts) request st = (Err e, st') ->
          NewContainer c id spec opts st = (Err e, st'))
       /\ (forall container st',
            applyOpts (map (fun o => o c) opts) request st
              = (Ok container, st') ->
            match containers_Create (containers c) container
                    (run_world st') with
            | (inl e, w) =>
              NewContainer c id spec opts st =
                (Err e, logged st' (EvCreate (containers c) container) w)
            | (inr r, w) =>
              NewContainer c id spec opts st =
                (Ok (containerFromProto c r),
                 logged st' (EvCreate (containers c) container) w)
            end)).
Proof.
  split.
  - intros e Hmarshal. unfold NewContainer, tbind, tliftE.
    by rewrite Hmarshal.
  - intros data Hmarshal request. split.
    + intros e st' Hopts. unfold NewContainer, tbind, tliftE.
      rewrite Hmarshal. fold request.
      unfold NewContainer_request. fold request. by rewrite Hopts.
    + intros container st' Hopts. unfold NewContainer, tbind, tliftE.
      rewrite Hmarshal. unfold NewContainer_request. fold request.
      rewrite Hopts. unfold tcall, tret.
      by destruct (containers_Create (containers c) container (run_world st'))
        as [[e|r] w].
Qed.

(** None of the other options of client.go changes the runtime. *)
Lemma otherOption_keeps_Runtime (o : NewContainerOpts W Rest)
    c container st container' st' :
  otherOption o ->
  o c container st = (Ok container', st') ->
  containers.Runtime container' = containers.Runtime container.
Proof.
  intros [labels|rootfsID|rootfsID image|rootfsID image] Hrun.
  - unfold NewContainerWithLables, tret in Hrun. by simplify_eq.
  - unfold NewContainerWithExistingRootFS, tbind, tcall, tret in Hrun.
    destruct (snapshotter_Mounts (snapshotter c) rootfsID (run_world st))
      as [[e|mounts] w]; by simplify_eq.
  - unfold NewContainerWithNewRootFS in Hrun.
    destruct image as [img|]; [|discriminate].
    unfold tbind, tcall, tret in Hrun.
    destruct (Image_RootFS (i img) (content c) (run_world st))
      as [[e|diffIDs] w1]; [discriminate|]. simpl in Hrun.
    destruct (snapshotter_Prepare (snapshotter c) rootfsID
                (identity_ChainID diffIDs) w1) as [[e|mounts] w2];
      by simplify_eq.
  - unfold NewContainerWithNewReadonlyRootFS in Hrun.
    destruct image as [img|]; [|discriminate].
    unfold tbind, tcall, tret in Hrun.
    destruct (Image_RootFS (i img) (content c) (run_world st))
      as [[e|diffIDs] w1]; [discriminate|]. simpl in Hrun.
    destruct (snapshotter_View (snapshotter c) rootfsID
                (identity_ChainID diffIDs) w1) as [[e|mounts] w2];
      by simplify_eq.
Qed.

Lemma otherOptions_keep_Runtime (opts : list (NewContainerOpts W Rest))
    c container st container' st' :
  Forall otherOption opts ->
  applyOpts (map (fun o => o c) opts) container st = (Ok container', st') ->
  containers.Runtime container' = containers.Runtime container.
Proof.
  intros Hopts. revert container st.
  induction Hopts as [|o opts Ho _ IH]; intros container st Hrun;
    simpl in Hrun.
  - unfold tret in Hrun. by simplify_eq.
  - unfold tbind in Hrun.
    destruct (o c container st) as [[container1|e|msg] st1] eqn:Hfirst;
      try discriminate.
    rewrite (IH _ _ Hrun).
    by eapply otherOption_keeps_Runtime.
Qed.

(** X12: when the options succeed, the runtime of the container sent to
    [Create] is the one the last [NewContainerWithRuntime] option names,
    whatever the client's own runtime and the earlier options say and
    whichever of the other options of client.go (labels, existing, new or
    read-only root filesystem) come after it. *)
Theorem NewContainer_last_runtime_wins
    c (id : string) (spec : SpecT) (opts1 opts2 : list (NewContainerOpts W Rest))
    (name : string) st data container st' :
  json_Marshal spec = inr data ->
  Forall otherOption opts2 ->
  applyOpts
    (map (fun o => o c) (opts1 ++ NewContainerWithRuntime name :: opts2))
    (NewContainer_request c id data) st
    = (Ok container, st') ->
  containers.Runtime container = name
  /\ NewContainer c id spec (opts1 ++ NewContainerWithRuntime name :: opts2) st
     = match containers_Create (containers c) container (run_world st') with
       | (inl e, w) =>
         (Err e, logged st' (EvCreate (containers c) container) w)
       | (inr r, w) =>
         (Ok (containerFromProto c r),
          logged st' (EvCreate (containers c) container) w)
       end.
Proof.
  intros Hmarshal Hothers Hopts. split.
  - rewrite map_app in Hopts. rewrite applyOpts_app in Hopts.
    unfold tbind at 1 in Hopts.
    match type of Hopts with
    | context [applyOpts ?l ?x st] =>
      destruct (applyOpts l x st) as [[container1|e|msg] st1];
        try discriminate
    end.
    simpl in Hopts. unfold tbind at 1 in Hopts.
    unfold NewContainerWithRuntime at 1, tret in Hopts.
    by rewrite (otherOptions_keep_Runtime _ _ _ _ _ _ Hothers Hopts).
  - unfold NewContainer. unfold tbind at 1. unfold tliftE. rewrite Hmarshal.
    unfold tbind at 1.
    match goal with
    | |- context [applyOpts ?l ?x st] =>
      replace (applyOpts l x st) with (Ok container, st')
        by (symmetry; exact Hopts)
    end.
    unfold tbind, tcall, tret.
    by destruct (containers_Create (containers c) container (run_world st'))
      as [[e|r] w].
Qed.

(** X13: [NewContainer] with [NewContainerWithExistingRootFS] first asks
    the snapshotter for the mounts of the named snapshot.  When that fails
    the error comes back and [Create] is never called; when it succeeds the
    container sent to [Create] has the snapshot as its root filesystem. *)
Theorem NewContainer_checks_existing_rootfs
    c (id rootfsID : string) (spec : SpecT) st data :
  json_Marshal spec = inr data ->
  let mountsCall := EvMounts (snapshotter c) rootfsID in
  let sent := containers.setRootFS (NewContainer_request c id data) rootfsID in
  match snapshotter_Mounts (snapshotter c) rootfsID (run_world st) with
  | (inl e, w) =>
    NewContainer c id spec [NewContainerWithExistingRootFS rootfsID] st
      = (Err e, logged st mountsCall w)
  | (inr _, w) =>
    match containers_Create (containers c) sent w with
    | (inl e, w') =>
      NewContainer c id spec [NewContainerWithExistingRootFS rootfsID] st
        = (Err e,
           logged (logged st mountsCall w) (EvCreate (containers c) sent) w')
    | (inr r, w') =>
      NewContainer c id spec [NewContainerWithExistingRootFS rootfsID] st
        = (Ok (containerFromProto c r),
           logged (logged st mountsCall w) (EvCreate (containers c) sent) w')
    end
  end.
Proof.
  intros Hmarshal mountsCall sent.
  unfold NewContainer, NewContainerWithExistingRootFS. simpl.
  unfold tbind, tliftE, tcall, tret. rewrite Hmarshal. simpl.
  destruct (snapshotter_Mounts (snapshotter c) rootfsID (run_world st))
    as [[e|mounts] w]; [done|]. simpl. fold sent.
  by destruct (containers_Create (containers c) sent w) as [[e|r] w'].
Qed.

(** X14: when [NewContainerWithNewRootFS] succeeds, the image was not nil,
    its diff IDs were read from the client's content store, a snapshot
    keyed by the given id was prepared on the parent
    [identity.ChainID(diffIDs)], these were the only two calls, and the
    container differs from the one given only in its root filesystem,
    which is the id. *)
Theorem NewContainerWithNewRootFS_prepares_on_chain
    (id : string) (image : option Image) client container st container' st' :
  NewContainerWithNewRootFS id image client container st = (Ok container', st') ->
  exists img diffIDs w1 mounts,
    image = Some img
    /\ Image_RootFS (i img) (content client) (run_world st) = (inr diffIDs, w1)
    /\ snapshotter_Prepare (snapshotter client) id (identity_ChainID diffIDs) w1
         = (inr mounts, run_world st')
    /\ eventsSince st st' =
         [EvRootFS (i img) (content client);
          EvPrepare (snapshotter client) id (identity_ChainID diffIDs)]
    /\ container' = containers.setRootFS container id.
Proof.
  unfold NewContainerWithNewRootFS. destruct image as [img|]; [|discriminate].
  unfold tbind, tcall, tret.
  destruct (Image_RootFS (i img) (content client) (run_world st))
    as [[e|diffIDs] w1] eqn:Hroot; [discriminate|]. simpl.
  destruct (snapshotter_Prepare (snapshotter client) id
              (identity_ChainID diffIDs) w1) as [[e|mounts] w2] eqn:Hprep;
    [discriminate|].
  intros Heq. simplify_eq.
  exists img, diffIDs, w1, mounts. repeat split; try done.
  apply eventsSince_logged2.
Qed.

(** X15: when [NewContainerWithNewReadonlyRootFS] succeeds, the image was
    not nil, its diff IDs were read from the client's content store, a
    view keyed by the given id was taken on the parent
    [identity.ChainID(diffIDs)], these were the only two calls, and the
    container differs from the one given only in its root filesystem. *)
Theorem NewContainerWithNewReadonlyRootFS_views_on_chain
    (id : string) (image : option Image) client container st container' st' :
  NewContainerWithNewReadonlyRootFS id image client container st
    = (Ok container', st') ->
  exists img diffIDs w1 mounts,
    image = Some img
    /\ Image_RootFS (i img) (content client) (run_world st) = (inr diffIDs, w1)
    /\ snapshotter_View (snapshotter client) id (identity_ChainID diffIDs) w1
         = (inr mounts, run_world st')
    /\ eventsSince st st' =
         [EvRootFS (i img) (content client);
          EvView (snapshotter client) id (identity_ChainID diffIDs)]
    /\ container' = containers.setRootFS container id.
Proof.
  unfold NewContainerWithNewReadonlyRootFS.
  destruct image as [img|]; [|discriminate].
  unfold tbind, tcall, tret.
  destruct (Image_RootFS (i img) (content client) (run_world st))
    as [[e|diffIDs] w1] eqn:Hroot; [discriminate|]. simpl.
  destruct (snapshotter_View (snapshotter client) id
              (identity_ChainID diffIDs) w1) as [[e|mounts] w2] eqn:Hview;
    [discriminate|].
  intros Heq. simplify_eq.
  exists img, diffIDs, w1, mounts. repeat split; try done.
  apply eventsSince_logged2.
Qed.

Lemma eventsSince_same st : eventsSince st st = [].
Proof. unfold eventsSince. by rewrite drop_all. Qed.

(** X16: however they end, the writable root filesystem option never asks
    the snapshotter for a view and the read-only one never asks it to
    prepare a writable snapshot; and when the image's diff IDs cannot be
    read, either option returns that error after this one call, without
    reaching the snapshotter. *)
Theorem rootfs_options_snapshot_calls
    (id : string) (image : option Image) client container st :
  Forall (fun e => isView e = false)
    (eventsSince st (NewContainerWithNewRootFS id image client container st).2)
  /\ Forall (fun e => isPrepare e = false)
       (eventsSince st
          (NewContainerWithNewReadonlyRootFS id image client container st).2)
  /\ (forall img e w1,
       image = Some img ->
       Image_RootFS (i img) (content client) (run_world st) = (inl e, w1) ->
       NewContainerWithNewRootFS id image client container st
         = (Err e, logged st (EvRootFS (i img) (content client)) w1)
       /\ NewContainerWithNewReadonlyRootFS id image client container st
          = (Err e, logged st (EvRootFS (i img) (content client)) w1)).
Proof.
  split; [|split].
  - unfold NewContainerWithNewRootFS. destruct image as [img|]; simpl.
    2:{ rewrite eventsSince_same. constructor. }
    unfold tbind, tcall, tret.
    destruct (Image_RootFS (i img) (content client) (run_world st))
      as [[e|diffIDs] w1]; simpl.
    { rewrite eventsSince_logged. by repeat constructor. }
    destruct (snapshotter_Prepare (snapshotter client) id
                (identity_ChainID diffIDs) w1) as [[e|mounts] w2]; simpl;
      rewrite eventsSince_logged2; by repeat constructor.
  - unfold NewContainerWithNewReadonlyRootFS. destruct image as [img|]; simpl.
    2:{ rewrite eventsSince_same. constructor. }
    unfold tbind, tcall, tret.
    destruct (Image_RootFS (i img) (content client) (run_world st))
      as [[e|diffIDs] w1]; simpl.
    { rewrite eventsSince_logged. by repeat constructor. }
    destruct (snapshotter_View (snapshotter client) id
                (identity_ChainID diffIDs) w1) as [[e|mounts] w2]; simpl;
      rewrite eventsSince_logged2; by repeat constructor.
  - intros img e w1 -> Hroot.
    unfold NewContainerWithNewRootFS, NewContainerWithNewReadonlyRootFS.
    unfold tbind, tcall. by rewrite Hroot.
Qed.

(** X17: [New] dials [dialAddress(address)].  When the dial fails, the
    error comes back wrapped with a message that quotes the address as
    given, and no option is applied.  When it succeeds, the options are
    applied from left to right to a client on the new connection whose
    runtime is [runtime.GOOS]; the first option that fails ends [New] with
    its error in the state that option left, the later options are not
    applied, and [New] itself closes nothing. *)
Theorem New_dials_then_applies_options
    (address : string) (opts1 opts2 : list (NewClientOpts W Rest)) o st :
  let dial := EvDial (dialAddress address) in
  (forall e w,
     grpc_Dial (dialAddress address) (run_world st) = (inl e, w) ->
     New address (opts1 ++ o :: opts2) st =
       (Err (errors_Wrap e ("failed to dial " +:+ strconv_Quote address)),
        logged st dial w))
  /\ (forall cn w c st1 e st2,
       grpc_Dial (dialAddress address) (run_world st) = (inr cn, w) ->
       applyOpts opts1 {| conn := cn; Runtime := runtime_GOOS |}
         (logged st dial w) = (Ok c, st1) ->
       o c st1 = (Err e, st2) ->
       New address (opts1 ++ o :: opts2) st = (Err e, st2))
  /\ (forall cn w,
       grpc_Dial (dialAddress address) (run_world st) = (inr cn, w) ->
       New address [] st =
         (Ok {| conn := cn; Runtime := runtime_GOOS |}, logged st dial w)).
Proof.
  intros dial. split; [|split].
  - intros e w Hdial. unfold New, tbind, twrapping, tcall. by rewrite Hdial.
  - intros cn w c st1 e st2 Hdial Hopts Ho.
    unfold New. unfold tbind at 1. unfold twrapping, tcall. rewrite Hdial.
    cbv zeta. rewrite (applyOpts_app (A := Client)). unfold tbind at 1.
    fold dial. rewrite Hopts. simpl. unfold tbind. by rewrite Ho.
  - intros cn w Hdial. unfold New, tbind, twrapping, tcall.
    by rewrite Hdial.
Qed.
End ContainerProperties.

(** * The further properties on the small registry and daemon *)

Import ContainerExample.

(** X4 with a failing option between two that would succeed. *)
Lemma GenerateSpec_applies_options_in_order_witness :
  GenerateSpec exampleDefaultSpec "c1"
    ([WithImageRef "busybox"] ++ failingSpecOpt :: [WithArgs ["true"]])
  = Err (ErrIO "bad option").
Proof.
  destruct (GenerateSpec_applies_options_in_order exampleDefaultSpec "c1"
              [WithImageRef "busybox"] failingSpecOpt [WithArgs ["true"]])
    as (_ & _ & Hnext).
  destruct (Hnext _ eq_refl) as (Hfails & _ & _).
  exact (Hfails (ErrIO "bad option") eq_refl).
Defined.

(** X5 on a default spec that runs [sh]. *)
Lemma GenerateSpec_final_WithArgs_witness :
  exists s,
    GenerateSpec exampleDefaultSpec "c1"
      ([WithImageRef "busybox"] ++ [WithArgs ["echo"; "hi"]]) = Ok s
    /\ exists p, spec_Process s = Some p /\ Args p = ["echo"; "hi"].
Proof.
  eexists. split; [reflexivity|].
  eapply (GenerateSpec_final_WithArgs exampleDefaultSpec "c1"
            [WithImageRef "busybox"] ["echo"; "hi"]).
  reflexivity.
Defined.

(** X6 on the same default spec. *)
Lemma GenerateSpec_final_WithImageRef_witness :
  exists s,
    GenerateSpec exampleDefaultSpec "c1"
      ([WithArgs ["true"]; WithImageRef "alpine"] ++ [WithImageRef "busybox"])
      = Ok s
    /\ exists annotations,
         Annotations s = Some annotations
         /\ annotations !! "image" = Some "busybox".
Proof.
  eexists. split; [reflexivity|].
  eapply (GenerateSpec_final_WithImageRef exampleDefaultSpec "c1"
            [WithArgs ["true"]; WithImageRef "alpine"] "busybox").
  reflexivity.
Defined.

(** X8 on [busybox]: its one layer is applied and committed. *)
Lemma Unpack_applies_paired_layers_witness :
  (content_ReadBlob (Collab := exampleCollab) (su_store exampleUnpacker)
     (v1.Digest (images.Target busybox)) loadedWorld
     = (inr [Byte.x01], loadedWorld)
   /\ json_Unmarshal (Collab := exampleCollab) [Byte.x01]
        = inr busyboxManifest
   /\ Image_RootFS (Collab := exampleCollab) busybox
        (su_store exampleUnpacker) loadedWorld
        = (inr ["sha:def"], loadedWorld)
   /\ 1 = 1)
  /\ (snapshotUnpacker_Unpack (C := exampleCollab) exampleUnpacker busybox
        (start loadedWorld)).1 = Ok tt
  /\ committed
       (world (snapshotUnpacker_Unpack (C := exampleCollab) exampleUnpacker
                 busybox (start loadedWorld)).2) = {[ "sha:def" ]}.
Proof.
  split; [repeat split; reflexivity|].
  rewrite (Unpack_applies_paired_layers (C := exampleCollab)
             exampleUnpacker busybox (start loadedWorld)
             [Byte.x01] loadedWorld busyboxManifest ["sha:def"] loadedWorld
             eq_refl eq_refl eq_refl eq_refl).
  split; vm_compute; reflexivity.
Defined.

(** X9 with a failing option between two [WithPullUnpack]. *)
Lemma Pull_stops_at_failing_option_witness :
  applyPullOpts [WithPullUnpack (C := exampleCollab)] exampleClient
    (defaultPullContext (C := exampleCollab)) (start emptyWorld)
    = (Ok {| pc_Resolver := resolver exampleRemote;
             pc_Unpacker :=
               Some (asUnpacker (C := exampleCollab)
                       (clientUnpacker exampleClient)) |},
       start emptyWorld)
  /\ Pull (C := exampleCollab) exampleClient "busybox"
       ([WithPullUnpack (C := exampleCollab)]
          ++ failingPullOpt :: [WithPullUnpack (C := exampleCollab)])
       (start emptyWorld)
     = (Err (ErrIO "bad option"), start emptyWorld).
Proof.
  split; [reflexivity|].
  apply (Pull_stops_at_failing_option (C := exampleCollab) exampleClient
           "busybox" [WithPullUnpack (C := exampleCollab)]
           [WithPullUnpack (C := exampleCollab)] failingPullOpt
           (start emptyWorld) _ (start emptyWorld) (ErrIO "bad option")
           (start emptyWorld) eq_refl eq_refl).
Defined.

(** X11 without options: the container created is the request itself. *)
Lemma NewContainer_creates_after_options_witness :
  NewContainer (CC := exampleContainerCollab) exampleClient "c1" exampleSpec
    [] (begin emptyWorld)
  = (Ok (exampleClient,
         NewContainer_request (CC := exampleContainerCollab) exampleClient
           "c1" [Byte.x7b; Byte.x7d]),
     logged (begin emptyWorld)
       (EvCreate (containers exampleClient)
          (NewContainer_request (CC := exampleContainerCollab) exampleClient
             "c1" [Byte.x7b; Byte.x7d]))
       emptyWorld).
Proof.
  destruct (NewContainer_creates_after_options (CC := exampleContainerCollab)
              exampleClient "c1" exampleSpec [] (begin emptyWorld))
    as [_ Hmarshalled].
  destruct (Hmarshalled [Byte.x7b; Byte.x7d] eq_refl) as [_ Hcreate].
  exact (Hcreate _ (begin emptyWorld) eq_refl).
Defined.

(** X12 with two runtime options followed by a labels option and an
    existing root filesystem: the second runtime is sent. *)
Lemma NewContainer_last_runtime_wins_witness :
  exists container st',
    (json_Marshal (ContainerCollab := exampleContainerCollab) exampleSpec
       = inr [Byte.x7b; Byte.x7d]
     /\ Forall (otherOption (C := exampleCollab)
                  (CC := exampleContainerCollab))
          [NewContainerWithLables None;
           NewContainerWithExistingRootFS (CC := exampleContainerCollab)
             "sha:def"]
     /\ applyOpts
          (map (fun o => o exampleClient)
             ([NewContainerWithRuntime "runc"]
                ++ NewContainerWithRuntime "kata"
                   :: [NewContainerWithLables None;
                       NewContainerWithExistingRootFS
                         (CC := exampleContainerCollab) "sha:def"]))
          (NewContainer_request (CC := exampleContainerCollab) exampleClient
             "c1" [Byte.x7b; Byte.x7d])
          (begin unpackedWorld)
        = (Ok container, st'))
    /\ containers.Runtime container = "kata"
    /\ containers.RootFS container = "sha:def".
Proof.
  assert (Hothers :
    Forall (otherOption (C := exampleCollab) (CC := exampleContainerCollab))
      [NewContainerWithLables None;
       NewContainerWithExistingRootFS (CC := exampleContainerCollab)
         "sha:def"])
    by (repeat constructor).
  assert (Hopts :
    applyOpts
      (map (fun o => o exampleClient)
         ([NewContainerWithRuntime "runc"]
            ++ NewContainerWithRuntime "kata"
               :: [NewContainerWithLables None;
                   NewContainerWithExistingRootFS
                     (CC := exampleContainerCollab) "sha:def"]))
      (NewContainer_request (CC := exampleContainerCollab) exampleClient
         "c1" [Byte.x7b; Byte.x7d])
      (begin unpackedWorld)
    = (Ok (containers.setRootFS
             (containers.setLabels
                (containers.setRuntime
                   (containers.setRuntime
                      (NewContainer_request (CC := exampleContainerCollab)
                         exampleClient "c1" [Byte.x7b; Byte.x7d])
                      "runc")
                   "kata")
                None)
             "sha:def"),
       logged (begin unpackedWorld)
         (EvMounts (snapshotter exampleClient) "sha:def") unpackedWorld))
    by (vm_compute; reflexivity).
  eexists _, _. split; [split; [reflexivity|split; [exact Hothers|exact Hopts]]|].
  split; [|reflexivity].
  exact (proj1 (NewContainer_last_runtime_wins (C := exampleCollab)
                  (CC := exampleContainerCollab)
                  exampleClient "c1" exampleSpec
                  [NewContainerWithRuntime "runc"]
                  [NewContainerWithLables None;
                   NewContainerWithExistingRootFS
                     (CC := exampleContainerCollab) "sha:def"]
                  "kata" (begin unpackedWorld) [Byte.x7b; Byte.x7d] _ _
                  eq_refl Hothers Hopts)).
Defined.

(** X13 on a snapshot the snapshotter does not have. *)
Lemma NewContainer_checks_existing_rootfs_witness :
  json_Marshal (ContainerCollab := exampleContainerCollab) exampleSpec
    = inr [Byte.x7b; Byte.x7d]
  /\ NewContainer (CC := exampleContainerCollab) exampleClient "c1"
       exampleSpec
       [NewContainerWithExistingRootFS (CC := exampleContainerCollab) "missing"]
       (begin emptyWorld)
     = (Err (ErrNotFound "missing"),
        logged (begin emptyWorld)
          (EvMounts (snapshotter exampleClient) "missing") emptyWorld).
Proof.
  split; [reflexivity|].
  exact (NewContainer_checks_existing_rootfs (CC := exampleContainerCollab)
           exampleClient "c1" "missing" exampleSpec (begin emptyWorld)
           [Byte.x7b; Byte.x7d] eq_refl).
Defined.

(** After the pull with [WithPullUnpack], the chain ID of [busybox] is
    committed. *)
Lemma unpacked_busybox_is_committed :
  committed unpackedWorld = {[ "sha:def" ]}.
Proof. vm_compute. reflexivity. Qed.

(** X14 on [busybox] after it has been pulled and unpacked: the snapshot
    is prepared on the chain ID of its diff IDs. *)
Lemma NewContainerWithNewRootFS_prepares_on_chain_witness :
  exists container' st',
    NewContainerWithNewRootFS (C := exampleCollab)
      (CC := exampleContainerCollab) "rootfs1" (Some busyboxImage)
      exampleClient
      (NewContainer_request (CC := exampleContainerCollab) exampleClient
         "c1" [Byte.x7b; Byte.x7d])
      (begin unpackedWorld) = (Ok container', st')
    /\ containers.RootFS container' = "rootfs1"
    /\ exists img diffIDs,
         eventsSince (begin unpackedWorld) st' =
           [EvRootFS (i img) (content exampleClient);
            EvPrepare (snapshotter exampleClient) "rootfs1"
              (identity_ChainID (ContainerCollab := exampleContainerCollab)
                 diffIDs)].
Proof.
  assert (Hrun :
    NewContainerWithNewRootFS (C := exampleCollab)
      (CC := exampleContainerCollab) "rootfs1" (Some busyboxImage)
      exampleClient
      (NewContainer_request (CC := exampleContainerCollab) exampleClient
         "c1" [Byte.x7b; Byte.x7d])
      (begin unpackedWorld)
    = (Ok (containers.setRootFS
             (NewContainer_request (CC := exampleContainerCollab)
                exampleClient "c1" [Byte.x7b; Byte.x7d]) "rootfs1"),
       (NewContainerWithNewRootFS (C := exampleCollab)
          (CC := exampleContainerCollab) "rootfs1" (Some busyboxImage)
          exampleClient
          (NewContainer_request (CC := exampleContainerCollab) exampleClient
             "c1" [Byte.x7b; Byte.x7d])
          (begin unpackedWorld)).2))
    by (vm_compute; reflexivity).
  eexists _, _. split; [exact Hrun|]. split; [reflexivity|].
  destruct (NewContainerWithNewRootFS_prepares_on_chain (C := exampleCollab)
              (CC := exampleContainerCollab) _ _ _ _ _ _ _ Hrun)
    as (img & diffIDs & w1 & mounts & _ & _ & _ & Hevents & _).
  exists img, diffIDs. exact Hevents.
Defined.

(** X15 on the same world: a view is taken on the same chain ID. *)
Lemma NewContainerWithNewReadonlyRootFS_views_on_chain_witness :
  exists container' st',
    NewContainerWithNewReadonlyRootFS (C := exampleCollab)
      (CC := exampleContainerCollab) "rootfs2" (Some busyboxImage)
      exampleClient
      (NewContainer_request (CC := exampleContainerCollab) exampleClient
         "c2" [Byte.x7b; Byte.x7d])
      (begin unpackedWorld) = (Ok container', st')
    /\ containers.RootFS container' = "rootfs2"
    /\ exists img diffIDs,
         eventsSince (begin unpackedWorld) st' =
           [EvRootFS (i img) (content exampleClient);
            EvView (snapshotter exampleClient) "rootfs2"
              (identity_ChainID (ContainerCollab := exampleContainerCollab)
                 diffIDs)].
Proof.
  assert (Hrun :
    NewContainerWithNewReadonlyRootFS (C := exampleCollab)
      (CC := exampleContainerCollab) "rootfs2" (Some busyboxImage)
      exampleClient
      (NewContainer_request (CC := exampleContainerCollab) exampleClient
         "c2" [Byte.x7b; Byte.x7d])
      (begin unpackedWorld)
    = (Ok (containers.setRootFS
             (NewContainer_request (CC := exampleContainerCollab)
                exampleClient "c2" [Byte.x7b; Byte.x7d]) "rootfs2"),
       (NewContainerWithNewReadonlyRootFS (C := exampleCollab)
          (CC := exampleContainerCollab) "rootfs2" (Some busyboxImage)
          exampleClient
          (NewContainer_request (CC := exampleContainerCollab) exampleClient
             "c2" [Byte.x7b; Byte.x7d])
          (begin unpackedWorld)).2))
    by (vm_compute; reflexivity).
  eexists _, _. split; [exact Hrun|]. split; [reflexivity|].
  destruct (NewContainerWithNewReadonlyRootFS_views_on_chain
              (C := exampleCollab) (CC := exampleContainerCollab)
              _ _ _ _ _ _ _ Hrun)
    as (img & diffIDs & w1 & mounts & _ & _ & _ & Hevents & _).
  exists img, diffIDs. exact Hevents.
Defined.

(** X16 on an empty Blob Store: the diff IDs of [busybox] cannot be read
    and neither option reaches the snapshotter. *)
Lemma rootfs_options_snapshot_calls_witness :
  NewContainerWithNewRootFS (C := exampleCollab)
    (CC := exampleContainerCollab) "rootfs1" (Some busyboxImage)
    exampleClient
    (NewContainer_request (CC := exampleContainerCollab) exampleClient
       "c1" [Byte.x7b; Byte.x7d])
    (begin emptyWorld)
  = (Err (ErrNotFound "sha:m1"),
     logged (begin emptyWorld) (EvRootFS busybox (content exampleClient))
       emptyWorld)
  /\ NewContainerWithNewReadonlyRootFS (C := exampleCollab)
       (CC := exampleContainerCollab) "rootfs1" (Some busyboxImage)
       exampleClient
       (NewContainer_request (CC := exampleContainerCollab) exampleClient
          "c1" [Byte.x7b; Byte.x7d])
       (begin emptyWorld)
     = (Err (ErrNotFound "sha:m1"),
        logged (begin emptyWorld) (EvRootFS busybox (content exampleClient))
          emptyWorld).
Proof.
  destruct (rootfs_options_snapshot_calls (C := exampleCollab)
              (CC := exampleContainerCollab) "rootfs1" (Some busyboxImage)
              exampleClient
              (NewContainer_request (CC := exampleContainerCollab)
                 exampleClient "c1" [Byte.x7b; Byte.x7d])
              (begin emptyWorld)) as (_ & _ & Hfail).
  exact (Hfail busyboxImage (ErrNotFound "sha:m1") emptyWorld eq_refl eq_refl).
Defined.

(** X17 on an address nobody listens on, and on the daemon's socket with
    a failing option. *)
Lemma New_dials_then_applies_options_witness :
  New (CC := exampleContainerCollab) "nowhere" ([] ++ failingClientOpt :: [])
    (begin emptyWorld)
  = (Err (errors_Wrap (ErrIO "connection refused")
            ("failed to dial " +:+ quoted "nowhere")),
     logged (begin emptyWorld) (EvDial "nowhere") emptyWorld)
  /\ New (CC := exampleContainerCollab) "/run/containerd/containerd.sock"
       ([] ++ failingClientOpt :: []) (begin emptyWorld)
     = (Err (ErrIO "bad option"),
        logged (begin emptyWorld) (EvDial "/run/containerd/containerd.sock")
          emptyWorld).
Proof.
  split.
  - destruct (New_dials_then_applies_options (CC := exampleContainerCollab)
                "nowhere" [] [] failingClientOpt (begin emptyWorld))
      as (Hdial & _ & _).
    exact (Hdial (ErrIO "connection refused") emptyWorld eq_refl).
  - destruct (New_dials_then_applies_options (CC := exampleContainerCollab)
                "/run/containerd/containerd.sock" [] [] failingClientOpt
                (begin emptyWorld))
      as (_ & Hopt & _).
    exact (Hopt {| conn_id := 1 |} emptyWorld
             {| conn := {| conn_id := 1 |}; Runtime := "linux" |}
             _ (ErrIO "bad option") _ eq_refl eq_refl eq_refl).
Defined.

(** X18 on a pull of [busybox] without options. *)
Lemma Pull_without_unpacker_skips_snapshotter_witness :
  (applyPullOpts [] exampleClient (defaultPullContext (C := exampleCollab))
     (start emptyWorld)
     = (Ok (defaultPullContext (C := exampleCollab)), start emptyWorld)
   /\ pc_Unpacker (defaultPullContext (C := exampleCollab)) = None)
  /\ Forall (fun call => reachesSnapshotterOrDiff call = false)
       (callsSince (start emptyWorld)
          (Pull (C := exampleCollab) exampleClient "busybox" []
             (start emptyWorld)).2)
  /\ length
       (callsSince (start emptyWorld)
          (Pull (C := exampleCollab) exampleClient "busybox" []
             (start emptyWorld)).2) <= 5.
Proof.
  split; [split; reflexivity|].
  exact (Pull_without_unpacker_skips_snapshotter (C := exampleCollab)
           exampleClient "busybox" [] (start emptyWorld) _ _
           eq_refl eq_refl).
Defined.

(** X19 on [twolayer], whose second layer cannot be applied: the error
    is the diff service's own. *)
Lemma Unpack_error_origins_witness :
  exists st',
    snapshotUnpacker_Unpack (C := collab Flaky.flakyRemote) exampleUnpacker
      Flaky.twolayer (start Flaky.twolayerWorld)
      = (Err (ErrIO "short read"), st')
    /\ exists layers w2 w3,
         rootfs_ApplyLayers (Collab := collab Flaky.flakyRemote) layers
           (su_snapshotter exampleUnpacker) (su_diff exampleUnpacker) w2
           = (inl (ErrIO "short read"), w3)
         /\ length layers = 2.
Proof.
  assert (Hrun :
    snapshotUnpacker_Unpack (C := collab Flaky.flakyRemote) exampleUnpacker
      Flaky.twolayer (start Flaky.twolayerWorld)
    = (Err (ErrIO "short read"),
       (snapshotUnpacker_Unpack (C := collab Flaky.flakyRemote)
          exampleUnpacker Flaky.twolayer (start Flaky.twolayerWorld)).2))
    by (vm_compute; reflexivity).
  eexists. split; [exact Hrun|].
  destruct (Unpack_error_origins (C := collab Flaky.flakyRemote)
              exampleUnpacker Flaky.twolayer (start Flaky.twolayerWorld)
              _ _ Hrun)
    as [(cause & w1 & Hread & _)
       |[(p & w1 & cause & Hread & Hparse & _)
        |[(p & w1 & manifest & cause & w2 & Hread & Hparse & Hroot & _)
         |[(p & w1 & manifest & diffIDs & w2 & Hread & Hparse & Hroot
            & Hne & _)
          |(p & w1 & manifest & diffIDs & w2 & w3 & Hread & Hparse & Hroot
            & Heq & Happly)]]]].
  - vm_compute in Hread. discriminate.
  - vm_compute in Hread. injection Hread as <- <-.
    vm_compute in Hparse. discriminate.
  - vm_compute in Hread. injection Hread as <- <-.
    vm_compute in Hparse. injection Hparse as <-.
    vm_compute in Hroot. discriminate.
  - vm_compute in Hread. injection Hread as <- <-.
    vm_compute in Hparse. injection Hparse as <-.
    vm_compute in Hroot. injection Hroot as <- <-.
    exfalso. apply Hne. reflexivity.
  - vm_compute in Hread. injection Hread as <- <-.
    vm_compute in Hparse. injection Hparse as <-.
    vm_compute in Hroot. injection Hroot as <- <-.
    eexists _, _, _. split; [exact Happly|]. reflexivity.
Defined.
